(** * HyperHeadset: the Astro A50 HID client, embedded and verified

    A shallow embedding of [src/hyperheadset/client.py] (with the command
    table of [enums.py] and the value records of [models.py]).

    Conventions of the embedding:
    - a Python [int] is a [Z]; [x & 0xFF] is [Z.land x 0xFF];
    - a Python [bytes] object is a [list byte], so that every element is in
      [range(256)] by construction; reading an element gives its unsigned
      value, an [int];
    - [bytes(iterable)] is the partial function [py_bytes], which fails
      (Python's ValueError) on an element outside [range(256)];
    - [Optional[X]] is [option X]; Python truthiness of a sequence is
      written out with [truthy];
    - a Python [float] (the timestamp of a snapshot, the length of a sleep)
      is a binary64 value, [spec_float];
    - [time.sleep(seconds)] is [time_sleep]: it raises on a length that is
      NaN, negative or beyond the range of the clock, and otherwise returns
      after a delay that changes no state the client reads. *)

From Stdlib Require Import ZArith List Lia Bool String.
From Stdlib Require Import Floats.SpecFloat.
From Stdlib Require Strings.Byte.
From coqutil Require Import Byte.
Import ListNotations.
Import Stdlib.Init.Byte.
Local Open Scope Z_scope.

(** ** Python primitives used by the client *)

Definition bytes : Type := list byte.

(** [len(xs)] *)
Definition len {A : Type} (xs : list A) : Z := Z.of_nat (List.length xs).

(** [bool(xs)] for an optional sequence: [None] and the empty sequence are
    falsy. *)
Definition truthy {A : Type} (xs : option (list A)) : bool :=
  match xs with
  | Some (_ :: _) => true
  | _ => false
  end.

(** [[x] * n]: the empty list when [n <= 0]. *)
Definition py_repeat {A : Type} (x : A) (n : Z) : list A := repeat x (Z.to_nat n).

(** [xs[i] = v] for an index inside the list (outside it Python raises
    IndexError; the client only assigns index 2 of a three-element list). *)
Fixpoint setitem {A : Type} (xs : list A) (i : nat) (v : A) : list A :=
  match xs, i with
  | [], _ => []
  | _ :: rest, O => v :: rest
  | x :: rest, S j => x :: setitem rest j v
  end.

(** [b[i]] on a bytes object: the unsigned value of the byte.  Every use in
    the client is guarded by a length test; outside the buffer (where Python
    raises IndexError) the model reads [0]. *)
Definition item (b : bytes) (i : nat) : Z := byte.unsigned (nth i b x00).

(** [xs[lo:hi]] for [0 <= lo] and [0 <= hi] (the only bounded slice the
    client takes): the elements at positions [lo <= i < min hi (len xs)]. *)
Definition slice {A : Type} (xs : list A) (lo hi : Z) : list A :=
  firstn (Z.to_nat (hi - lo)) (skipn (Z.to_nat lo) xs).

(** [xs[lo:]] for [0 <= lo]. *)
Definition slice_from {A : Type} (xs : list A) (lo : Z) : list A :=
  skipn (Z.to_nat lo) xs.

(** [bool(n)] and [int(flag)]. *)
Definition bool_of_int (n : Z) : bool := negb (n =? 0).
Definition int_of_bool (flag : bool) : Z := if flag then 1 else 0.

(** One element of [bytes(...)]: an [int] in [range(256)]. *)
Definition byte_of_int (value : Z) : option byte :=
  if (0 <=? value) && (value <? 256) then Byte.of_N (Z.to_N value) else None.

(** [bytes(values)]: [None] stands for the ValueError raised on an element
    outside [range(256)]. *)
Fixpoint py_bytes (values : list Z) : option bytes :=
  match values with
  | [] => Some []
  | value :: rest =>
      match byte_of_int value, py_bytes rest with
      | Some b, Some bs => Some (b :: bs)
      | _, _ => None
      end
  end.

(** ** enums.py *)

Module Command.
Definition getHeadsetStatus : Z := 0x54.
Definition getSliderValue : Z := 0x68.
Definition getNoiseGateMode : Z := 0x6A.
Definition getActiveEqPreset : Z := 0x6C.
Definition getBalance : Z := 0x72.
Definition getDefaultBalance : Z := 0x77.
Definition getAlertVolume : Z := 0x7A.
Definition getMicEq : Z := 0x7B.
Definition getBatteryStatus : Z := 0x7C.
End Command.

Module SliderType.
Definition streamMic : Z := 0x00.
Definition streamChat : Z := 0x01.
Definition streamGame : Z := 0x02.
Definition streamAux : Z := 0x03.
Definition mic : Z := 0x04.
Definition sidetone : Z := 0x05.
End SliderType.

(** ** models.py *)

Record BatteryStatus : Type := mkBatteryStatus {
  isCharging : bool;
  chargePercent : Z
}.

Record HeadsetStatus : Type := mkHeadsetStatus {
  isDocked : bool;
  isOn : bool
}.

(** ** client.py: the frame codec *)

(** [_buildRequestFrame(self, commandId, payloadBytes, reportLength)]; the
    method does not read [self]. *)
Definition _buildRequestFrame (commandId : Z) (payloadBytes : option (list Z))
    (reportLength : Z) : option bytes :=
  let frameBytes := [0x02; Z.land commandId 0xFF; 0x00] in
  let frameBytes :=
    if truthy payloadBytes then
      let payload := match payloadBytes with Some p => p | None => [] end in
      setitem frameBytes 2 (Z.land (len payload) 0xFF)
        ++ map (fun value => Z.land value 0xFF) payload
    else frameBytes in
  if reportLength =? 65 then
    let paddedBody := frameBytes ++ py_repeat 0 (64 - len frameBytes) in
    match py_bytes [0x00], py_bytes paddedBody with
    | Some reportId, Some body => Some (reportId ++ body)
    | _, _ => None
    end
  else
    let paddedBody := frameBytes ++ py_repeat 0 (reportLength - len frameBytes) in
    py_bytes paddedBody.

(** [_normalizeResponseFrame(self, responseFrame)] *)
Definition _normalizeResponseFrame (responseFrame : bytes) : bytes :=
  if truthy (Some responseFrame)
     && (item responseFrame 0 =? 0x00)
     && (len responseFrame >? 1)
     && (item responseFrame 1 =? 0x02)
  then slice_from responseFrame 1
  else responseFrame.

(** [_extractPayload(self, responseFrame)] *)
Definition _extractPayload (responseFrame : bytes) : option bytes :=
  if len responseFrame <? 3 then None
  else
    let frameStartByte := item responseFrame 0 in
    let statusCodeByte := item responseFrame 1 in
    if negb (frameStartByte =? 0x02) || negb (statusCodeByte =? 0x02) then None
    else
      let payloadLength := item responseFrame 2 in
      let payloadLength := Z.min payloadLength (Z.max 0 (len responseFrame - 3)) in
      Some (slice responseFrame 3 (3 + payloadLength)).

(** ** Exceptions and the effect monad *)

(** The four failures the client raises itself are all Python
    [RuntimeError]s; they differ by their message.  The names are those of
    the error taxonomy of the specification. *)
Inductive ErrorMessage : Type :=
| DeviceNotFoundError
    (* "Astro A50 HID interface not found (driver should be 'USB Input Device')." *)
| CommunicationError (commandId : Z)
    (* f"No valid response for cmd 0x{int(commandId):02X}" *)
| NoSaneBatteryValue
    (* "Could not read a sane battery value" *)
| UnexpectedPayloadError (what : string) (payload : bytes).
    (* f"Unexpected {what} payload: {payloadBytes!r}" *)

(** [OSError] and [OtherException] are what the hid binding may raise
    ([IOError] is an alias of [OSError]; anything else that derives from
    [Exception], such as [ValueError("not open")], is an [OtherException]).
    [RuntimeError message cause] is [raise RuntimeError(message) from cause]. *)
#[warnings="-register-all"]
Inductive Exception : Type :=
| OSError (detail : string)
| OtherException (detail : string)
| RuntimeError (message : ErrorMessage) (cause : option Exception).

Definition isOSError (error : Exception) : bool :=
  match error with
  | OSError _ => true
  | _ => false
  end.

(** A computation over a state [S]: it returns a value or raises, and leaves
    a new state either way. *)
Definition M (S A : Type) : Type := S -> (Exception + A) * S.

Definition ret {S A : Type} (a : A) : M S A := fun s => (inr a, s).

Definition raise {S A : Type} (error : Exception) : M S A := fun s => (inl error, s).

Definition bind {S A B : Type} (m : M S A) (k : A -> M S B) : M S B :=
  fun s =>
    match m s with
    | (inr a, s') => k a s'
    | (inl error, s') => (inl error, s')
    end.

Declare Scope py_scope.
Delimit Scope py_scope with py.
Notation "x <- m ;; k" := (bind m (fun x => k))
  (at level 61, m at next level, right associativity) : py_scope.
Notation "m ;;; k" := (bind m (fun _ => k))
  (at level 61, right associativity) : py_scope.
Local Open Scope py_scope.

(** [try: body / except OSError: pass], where the value [fallthrough] is
    what the model of the statement yields once the error is swallowed. *)
Definition except_OSError_pass {S A : Type} (body : M S A) (fallthrough : A) : M S A :=
  fun s =>
    match body s with
    | (inl error, s') => if isOSError error then (inr fallthrough, s') else (inl error, s')
    | done => done
    end.

(** [try: body / except Exception: pass] *)
Definition except_Exception_pass {S : Type} (body : M S unit) : M S unit :=
  fun s =>
    match body s with
    | (inl _, s') => (inr tt, s')
    | done => done
    end.

(** [try: body / finally: cleanup], for a [cleanup] that cannot raise (the
    client's only one swallows every exception): the outcome of [body]
    stands, after [cleanup] has run. *)
Definition try_finally {S A : Type} (body : M S A) (cleanup : M S unit) : M S A :=
  fun s =>
    match body s with
    | (outcome, s') => (outcome, snd (cleanup s'))
    end.

(** ** The hid module *)

(** One entry of [hid.enumerate()], with the two keys the client reads. *)
Record DeviceInfo : Type := mkDeviceInfo {
  vendor_id : Z;
  path : bytes
}.

(** The calls the client makes into the hid binding, over a state [World]
    of the operating system and the device.  A [bytes] result stands for
    the list of byte values the binding returns. *)
Class Hid (World : Type) : Type := {
  (* hid.enumerate() does not raise: it reports failure by an empty list *)
  enumerate : World -> list DeviceInfo * World;
  device : M World unit;
  open_path : bytes -> M World unit;
  set_nonblocking : Z -> M World unit;
  send_feature_report : bytes -> M World unit;
  get_feature_report : Z -> Z -> M World bytes;
  write : bytes -> M World unit;
  read : Z -> Z -> M World bytes;
  close : M World unit;
  (* time.time(), read by getSnapshot *)
  time_time : World -> spec_float * World
}.

(** A call that cannot raise, as a computation. *)
Definition total {S A : Type} (call : S -> A * S) : M S A :=
  fun s => match call s with (a, s') => (inr a, s') end.

(** ** time.sleep *)

(** The longest sleep, in nanoseconds: CPython converts the length to a
    signed 64-bit count of nanoseconds. *)
Definition maxSleepNanoseconds : Z := 2 ^ 63 - 1.

(** Whether [mantissa * 2^exponent] seconds are more than
    [maxSleepNanoseconds]. *)
Definition sleepOverflows (mantissa : positive) (exponent : Z) : bool :=
  if 0 <=? exponent
  then maxSleepNanoseconds <? Z.pos mantissa * 2 ^ exponent * 10 ^ 9
  else maxSleepNanoseconds * 2 ^ (- exponent) <? Z.pos mantissa * 10 ^ 9.

(** The exception [time.sleep(seconds)] raises, if any: ValueError for NaN
    and for a negative length, OverflowError for a length out of the range
    of the clock.  None of them is an [OSError]. *)
Definition sleepError (seconds : spec_float) : option Exception :=
  match seconds with
  | S754_nan => Some (OtherException "Invalid value NaN (not a number)")
  | S754_infinity _ => Some (OtherException "timestamp too large to convert to C _PyTime_t")
  | S754_zero _ => None
  | S754_finite negative mantissa exponent =>
      if sleepOverflows mantissa exponent
      then Some (OtherException "timestamp too large to convert to C _PyTime_t")
      else if negative
      then Some (OtherException "sleep length must be non-negative")
      else None
  end.

(** [time.sleep(seconds)] *)
Definition time_sleep {S : Type} (seconds : spec_float) : M S unit :=
  match sleepError seconds with
  | Some error => raise error
  | None => ret tt
  end.

(** The float literals of the client, as binary64 values. *)
Definition seconds_0_03 : spec_float := S754_finite false 8646911284551352 (-58).
Definition seconds_0_05 : spec_float := S754_finite false 7205759403792794 (-57).
Definition seconds_0_06 : spec_float := S754_finite false 8646911284551352 (-57).
Definition seconds_0_08 : spec_float := S754_finite false 5764607523034235 (-56).

(** ** client.py: the session and the transport *)

(** The attributes of a session. *)
Record AstroA50Client : Type := mkAstroA50Client {
  vendorId : Z;
  reportLengths : list Z;
  commandDelaySeconds : spec_float;
  lastGoodBatteryStatus : option BatteryStatus
}.

(** [AstroA50Client.__init__(vendorId, reportLengths, commandDelaySeconds)],
    for arguments already of the types the method converts them to. *)
Definition __init__ (vendorId : Z) (reportLengths : list Z) (commandDelaySeconds : spec_float)
    : AstroA50Client :=
  mkAstroA50Client vendorId reportLengths commandDelaySeconds None.

(** [self] after [self.lastGoodBatteryStatus = status]. *)
Definition withLastGood (self : AstroA50Client) (status : BatteryStatus) : AstroA50Client :=
  mkAstroA50Client (vendorId self) (reportLengths self) (commandDelaySeconds self) (Some status).

Definition defaultVendorId : Z := 0x9886.
Definition defaultReportLengths : list Z := [64; 65].
Definition defaultCommandDelaySeconds : spec_float := seconds_0_08.

Section Client.
Context {World : Type} {hid : Hid World}.

(** [_findDevicePath(self)] *)
Definition _findDevicePath (self : AstroA50Client) : M World bytes :=
  found <- total enumerate ;;
  let devices := filter (fun device => vendor_id device =? vendorId self) found in
  match devices with
  | [] => raise (RuntimeError DeviceNotFoundError None)
  | first :: _ => ret (path first)
  end.

(** The body of the [try] of one iteration of [_sendCommandOnce]'s loop.
    [Some response] is a [return response] executed inside it, [None] is
    reaching its end. *)
Definition _sendCommandOnce_try (devicePath : bytes) (commandId : Z)
    (payloadBytes : option (list Z)) (reportLength : Z) : M World (option bytes) :=
  open_path devicePath ;;;
  set_nonblocking 0 ;;;
  requestFrame <-
    match _buildRequestFrame commandId payloadBytes reportLength with
    | Some frame => ret frame
    | None => raise (OtherException "bytes must be in range(0, 256)")
    end ;;
  returned <-
    except_OSError_pass
      (send_feature_report requestFrame ;;;
       time_sleep seconds_0_03 ;;;
       featureResponse <- get_feature_report 0 reportLength ;;
       if truthy (Some featureResponse)
       then ret (Some (_normalizeResponseFrame featureResponse))
       else ret None)
      None ;;
  match returned with
  | Some response => ret (Some response)
  | None =>
      except_OSError_pass
        (write requestFrame ;;;
         interruptResponse <- read reportLength 250 ;;
         if truthy (Some interruptResponse)
         then ret (Some (_normalizeResponseFrame interruptResponse))
         else ret None)
        None
  end.

(** The [for reportLength in ...] loop of [_sendCommandOnce]. *)
Fixpoint _sendCommandOnce_for (devicePath : bytes) (commandId : Z)
    (payloadBytes : option (list Z)) (lengths : list Z) : M World (option bytes) :=
  match lengths with
  | [] => ret None
  | reportLength :: rest =>
      device ;;;
      returned <-
        try_finally
          (_sendCommandOnce_try devicePath commandId payloadBytes reportLength)
          (except_Exception_pass close) ;;
      match returned with
      | Some response => ret (Some response)
      | None => _sendCommandOnce_for devicePath commandId payloadBytes rest
      end
  end.

(** [_sendCommandOnce(self, devicePath, commandId, payloadBytes)] *)
Definition _sendCommandOnce (self : AstroA50Client) (devicePath : bytes) (commandId : Z)
    (payloadBytes : option (list Z)) : M World (option bytes) :=
  _sendCommandOnce_for devicePath commandId payloadBytes (reportLengths self).

(** The body of the [try] of one iteration of [_query]'s loop: [Some payload]
    is the [return payloadFromDevice], [None] is reaching its end. *)
Definition _query_try (self : AstroA50Client) (devicePath : bytes) (commandId : Z)
    (payloadBytes : option (list Z)) : M World (option bytes) :=
  responseFrame <- _sendCommandOnce self devicePath commandId payloadBytes ;;
  if truthy responseFrame then
    let frame := match responseFrame with Some f => f | None => [] end in
    match _extractPayload frame with
    | Some payloadFromDevice =>
        time_sleep (commandDelaySeconds self) ;;;
        ret (Some payloadFromDevice)
    | None => ret None
    end
  else ret None.

(** The [for _ in range(int(retries))] loop of [_query], with the local
    [lastError], and the [raise ... from lastError] after it. *)
Fixpoint _query_for (self : AstroA50Client) (devicePath : bytes) (commandId : Z)
    (payloadBytes : option (list Z)) (remaining : nat) (lastError : option Exception)
    : M World bytes :=
  match remaining with
  | O => raise (RuntimeError (CommunicationError commandId) lastError)
  | S remaining' =>
      fun world =>
        match _query_try self devicePath commandId payloadBytes world with
        | (inr (Some payloadFromDevice), world') => (inr payloadFromDevice, world')
        | (inr None, world') =>
            (time_sleep seconds_0_06 ;;;
             _query_for self devicePath commandId payloadBytes remaining' lastError) world'
        | (inl error, world') =>
            (time_sleep seconds_0_06 ;;;
             _query_for self devicePath commandId payloadBytes remaining' (Some error)) world'
        end
  end.

(** [_query(self, commandId, payloadBytes=None, retries=4)] *)
Definition _query (self : AstroA50Client) (commandId : Z)
    (payloadBytes : option (list Z)) (retries : Z) : M World bytes :=
  devicePath <- _findDevicePath self ;;
  _query_for self devicePath commandId payloadBytes (Z.to_nat retries) None.

(** The default of [_query]'s [retries], used by every caller in the client. *)
Definition _query_retries : Z := 4.

(** *** Main public API *)

(** The state a method that assigns an attribute of [self] runs over. *)
Definition Session : Type := (AstroA50Client * World)%type.

(** A call of a method that only reads [self]. *)
Definition method {A : Type} (m : AstroA50Client -> M World A) : M Session A :=
  fun '(self, world) =>
    match m self world with
    | (outcome, world') => (outcome, (self, world'))
    end.

(** [self.lastGoodBatteryStatus = batteryStatus] *)
Definition set_lastGoodBatteryStatus (batteryStatus : BatteryStatus) : M Session unit :=
  fun '(self, world) => (inr tt, (withLastGood self batteryStatus, world)).

(** The [for _ in range(int(retries))] loop of [getBatteryStatus] and the
    statements after it. *)
Fixpoint getBatteryStatus_for (remaining : nat) : M Session BatteryStatus :=
  match remaining with
  | O =>
      fun '(self, world) =>
        match lastGoodBatteryStatus self with
        | Some cached => (inr cached, (self, world))
        | None => (inl (RuntimeError NoSaneBatteryValue None), (self, world))
        end
  | S remaining' =>
      payloadBytes <- method (fun self => _query self Command.getBatteryStatus None _query_retries) ;;
      returned <-
        (if len payloadBytes >=? 1 then
           let statusByte := item payloadBytes 0 in
           let batteryStatus :=
             mkBatteryStatus (bool_of_int (Z.land statusByte 0x80)) (Z.land statusByte 0x7F) in
           if (0 <=? chargePercent batteryStatus) && (chargePercent batteryStatus <=? 100)
           then set_lastGoodBatteryStatus batteryStatus ;;; ret (Some batteryStatus)
           else ret None
         else ret None) ;;
      match returned with
      | Some batteryStatus => ret batteryStatus
      | None => time_sleep seconds_0_05 ;;; getBatteryStatus_for remaining'
      end
  end.

(** [getBatteryStatus(self, retries=6)] *)
Definition getBatteryStatus (retries : Z) : M Session BatteryStatus :=
  getBatteryStatus_for (Z.to_nat retries).

Definition getBatteryStatus_retries : Z := 6.

(** [getHeadsetStatus(self)] *)
Definition getHeadsetStatus (self : AstroA50Client) : M World HeadsetStatus :=
  payloadBytes <- _query self Command.getHeadsetStatus None _query_retries ;;
  if len payloadBytes <? 1
  then raise (RuntimeError (UnexpectedPayloadError "headset status" payloadBytes) None)
  else
    let statusByte := item payloadBytes 0 in
    ret (mkHeadsetStatus (bool_of_int (Z.land statusByte 0x01))
                         (bool_of_int (Z.land statusByte 0x02))).

(** [getSliderValue(self, sliderType, saved=False)] *)
Definition getSliderValue (self : AstroA50Client) (sliderType : Z) (saved : bool) : M World Z :=
  let sliderId := Z.land sliderType 0xFF in
  payloadBytes <- _query self Command.getSliderValue (Some [sliderId]) _query_retries ;;
  if (len payloadBytes <? 4)
     || negb (item payloadBytes 0 =? Command.getSliderValue)
     || negb (item payloadBytes 1 =? sliderId)
  then raise (RuntimeError (UnexpectedPayloadError "slider" payloadBytes) None)
  else
    let valueIndex := 2 + int_of_bool saved in
    ret (item payloadBytes (Z.to_nat valueIndex)).

(** [getActiveEqPreset(self)] *)
Definition getActiveEqPreset (self : AstroA50Client) : M World Z :=
  payloadBytes <- _query self Command.getActiveEqPreset None _query_retries ;;
  if negb (truthy (Some payloadBytes))
  then raise (RuntimeError (UnexpectedPayloadError "EQ" payloadBytes) None)
  else ret (item payloadBytes 0).

(** [getBalance(self)] *)
Definition getBalance (self : AstroA50Client) : M World Z :=
  payloadBytes <- _query self Command.getBalance None _query_retries ;;
  if negb (truthy (Some payloadBytes))
  then raise (RuntimeError (UnexpectedPayloadError "balance" payloadBytes) None)
  else ret (item payloadBytes 0).

(** [getDefaultBalance(self, saved=False)] *)
Definition getDefaultBalance (self : AstroA50Client) (saved : bool) : M World Z :=
  payloadBytes <- _query self Command.getDefaultBalance (Some [int_of_bool saved]) _query_retries ;;
  if negb (truthy (Some payloadBytes))
  then raise (RuntimeError (UnexpectedPayloadError "default balance" payloadBytes) None)
  else ret (item payloadBytes 0).

(** [getAlertVolume(self, saved=False)] *)
Definition getAlertVolume (self : AstroA50Client) (saved : bool) : M World Z :=
  payloadBytes <- _query self Command.getAlertVolume (Some [int_of_bool saved]) _query_retries ;;
  if negb (truthy (Some payloadBytes))
  then raise (RuntimeError (UnexpectedPayloadError "alert volume" payloadBytes) None)
  else ret (item payloadBytes 0).

(** [getMicEq(self, saved=False)] *)
Definition getMicEq (self : AstroA50Client) (saved : bool) : M World Z :=
  payloadBytes <- _query self Command.getMicEq (Some [int_of_bool saved]) _query_retries ;;
  if negb (truthy (Some payloadBytes))
  then raise (RuntimeError (UnexpectedPayloadError "mic EQ" payloadBytes) None)
  else ret (item payloadBytes 0).

(** [getNoiseGateMode(self, saved=False)] *)
Definition getNoiseGateMode (self : AstroA50Client) (saved : bool) : M World Z :=
  payloadBytes <- _query self Command.getNoiseGateMode None _query_retries ;;
  if (len payloadBytes <? 3) || negb (item payloadBytes 0 =? Command.getNoiseGateMode)
  then raise (RuntimeError (UnexpectedPayloadError "noise gate" payloadBytes) None)
  else ret (item payloadBytes (Z.to_nat (1 + int_of_bool saved))).

(** The values [getSnapshot] stores in its dictionary. *)
Inductive SnapshotValue : Type :=
| TimestampValue (seconds : spec_float)
| BatteryDict (isCharging : bool) (chargePercent : Z)
| HeadsetDict (isDocked isOn : bool)
| SidetoneDict (activePercent savedPercent : Z).

(** The dictionary [getSnapshot] builds, in insertion order; each key is
    assigned at most once, so [snapshot[key] = value] appends an entry. *)
Definition Snapshot : Type := list (string * SnapshotValue).

(** [getSnapshot(self, battery=True, headset=True, sidetone=False,
    includeTimestamp=True)] *)
Definition getSnapshot (battery headset sidetone includeTimestamp : bool) : M Session Snapshot :=
  let snapshot : Snapshot := [] in
  snapshot <-
    (if includeTimestamp
     then now <- method (fun _ => total time_time) ;;
          ret (snapshot ++ [("timestamp"%string, TimestampValue now)])
     else ret snapshot) ;;
  snapshot <-
    (if battery
     then batteryStatus <- getBatteryStatus getBatteryStatus_retries ;;
          ret (snapshot ++ [("battery"%string,
                             BatteryDict (isCharging batteryStatus) (chargePercent batteryStatus))])
     else ret snapshot) ;;
  snapshot <-
    (if headset
     then headsetStatus <- method getHeadsetStatus ;;
          ret (snapshot ++ [("headset"%string,
                             HeadsetDict (isDocked headsetStatus) (isOn headsetStatus))])
     else ret snapshot) ;;
  snapshot <-
    (if sidetone
     then sidetoneActive <- method (fun self => getSliderValue self SliderType.sidetone false) ;;
          sidetoneSaved <- method (fun self => getSliderValue self SliderType.sidetone true) ;;
          ret (snapshot ++ [("sidetone"%string, SidetoneDict sidetoneActive sidetoneSaved)])
     else ret snapshot) ;;
  ret snapshot.

End Client.

Arguments Session : clear implicits.

(** ** A scripted hid binding

    A test double of the hid module, used to run the client on concrete
    inputs: the enumeration is fixed, every frame handed to
    [send_feature_report] or [write] is recorded, and each
    [get_feature_report] or [read] consumes the next scripted reply (no data
    once the script is exhausted). *)

Inductive Reply : Type :=
| Data (response : bytes)
| Raises (error : Exception).

Record Scripted : Type := mkScripted {
  attached : list DeviceInfo;
  script : list Reply;
  sent : list bytes;
  clock : spec_float
}.

Definition scripted_send (frame : bytes) : M Scripted unit :=
  fun world =>
    (inr tt, mkScripted (attached world) (script world) (sent world ++ [frame]) (clock world)).

Definition scripted_receive : M Scripted bytes :=
  fun world =>
    match script world with
    | [] => (inr [], world)
    | Data response :: rest =>
        (inr response, mkScripted (attached world) rest (sent world) (clock world))
    | Raises error :: rest =>
        (inl error, mkScripted (attached world) rest (sent world) (clock world))
    end.

#[export] Instance scriptedHid : Hid Scripted := {
  enumerate := fun world => (attached world, world);
  device := ret tt;
  open_path := fun _ => ret tt;
  set_nonblocking := fun _ => ret tt;
  send_feature_report := scripted_send;
  get_feature_report := fun _ _ => scripted_receive;
  write := scripted_send;
  read := fun _ _ => scripted_receive;
  close := ret tt;
  time_time := fun world => (clock world, world)
}.

(** The base station, attached under the default vendor id. *)
Definition baseStation : DeviceInfo := mkDeviceInfo defaultVendorId [x41; x35; x30].

Definition scriptedWorld (replies : list Reply) : Scripted :=
  mkScripted [baseStation] replies [] (S754_zero false).

(** The default session of the command line: [AstroA50Client()]. *)
Definition defaultClient : AstroA50Client :=
  __init__ defaultVendorId defaultReportLengths defaultCommandDelaySeconds.

(** ** Recording the frames sent

    Any hid binding, extended with the list of the frames the client has
    handed to [send_feature_report] or [write]; every other call is passed
    through.  It is used to state what a method puts on the wire. *)

Definition Logged (World : Type) : Type := (World * list bytes)%type.

Definition passThrough {World A : Type} (call : M World A) : M (Logged World) A :=
  fun '(world, log) =>
    match call world with
    | (outcome, world') => (outcome, (world', log))
    end.

Definition passThroughTotal {World A : Type} (call : World -> A * World)
    : Logged World -> A * Logged World :=
  fun '(world, log) =>
    match call world with
    | (a, world') => (a, (world', log))
    end.

Definition recorded {World : Type} (call : bytes -> M World unit) (frame : bytes)
    : M (Logged World) unit :=
  fun '(world, log) =>
    match call frame world with
    | (outcome, world') => (outcome, (world', log ++ [frame]))
    end.

#[export] Instance loggedHid {World : Type} {hid : Hid World} : Hid (Logged World) := {
  enumerate := passThroughTotal enumerate;
  device := passThrough device;
  open_path := fun devicePath => passThrough (open_path devicePath);
  set_nonblocking := fun flag => passThrough (set_nonblocking flag);
  send_feature_report := recorded send_feature_report;
  get_feature_report := fun reportId size => passThrough (get_feature_report reportId size);
  write := recorded write;
  read := fun size timeout => passThrough (read size timeout);
  close := passThrough close;
  time_time := passThroughTotal time_time
}.

(** The frames [m] sends, started with an empty record. *)
Definition framesSent {World A : Type} (m : M (Logged World) A) (world : World) : list bytes :=
  snd (snd (m (world, []))).

(** [m] only ever sends frames that satisfy [P]. *)
Definition sendsOnly {World A : Type} (P : bytes -> Prop) (m : M (Logged World) A) : Prop :=
  forall (world : World) (log : list bytes),
    Forall P log -> Forall P (snd (snd (m (world, log)))).

(** ** Notions used to state the properties *)

(** The frames a query may send: the request frames of its command and
    payload for the report lengths of the session. *)
Definition requestFrameOf (self : AstroA50Client) (commandId : Z)
    (payloadBytes : option (list Z)) (frame : bytes) : Prop :=
  exists reportLength,
    In reportLength (reportLengths self) /\
    _buildRequestFrame commandId payloadBytes reportLength = Some frame.

(** The size of the body [_buildRequestFrame] pads to: 64 under the 65-byte
    convention (the 65th byte is the report id), [reportLength] otherwise. *)
Definition bodyLength (reportLength : Z) : Z :=
  if reportLength =? 65 then 64 else reportLength.

(** [echo] is a well-formed status-ok response carrying [payload] for a
    report of [reportLength] bytes: a body of marker, status-ok code, the
    payload length, the payload and padding, as long as a request body,
    with or without one leading report-id byte. *)
Definition wellFormedStatusOkEcho (reportLength : Z) (payload echo : bytes) : Prop :=
  exists (lengthByte : byte) (padding body : bytes),
    body = x02 :: x02 :: lengthByte :: payload ++ padding /\
    byte.unsigned lengthByte = len payload /\
    len body = bodyLength reportLength /\
    (echo = body \/ echo = x00 :: body).

(** The header and payload of a request as lists of ints: marker, command
    id, payload length and payload values, each reduced to a byte. *)
Definition requestHeader (commandId : Z) (payload : list Z) : list Z :=
  [0x02; Z.land commandId 0xFF; Z.land (len payload) 0xFF]
    ++ map (fun value => Z.land value 0xFF) payload.



(** The exception [_query] holds in [lastError] after the attempts
    [responses], when it held [before] at their start. *)
Definition lastRaisedAfter (before : option Exception)
    (responses : list (Exception + option bytes)) : option Exception :=
  fold_left
    (fun lastError response =>
       match response with
       | inl error => Some error
       | inr _ => lastError
       end)
    responses before.

Definition lastRaised (responses : list (Exception + option bytes)) : option Exception :=
  lastRaisedAfter None responses.

(** The reading of a battery status byte: bit 0x80 is the charging flag,
    the low seven bits are the charge percentage. *)
Definition batteryByteDecoding (statusByte : byte) : BatteryStatus :=
  mkBatteryStatus (Z.testbit (byte.unsigned statusByte) 7) (byte.unsigned statusByte mod 128).

(** The invariant of [BatteryStatus]. *)
Definition chargeInRange (status : BatteryStatus) : Prop :=
  0 <= chargePercent status <= 100.

(** A battery payload that gives no acceptable value: no status byte at
    all, or one that decodes outside [0, 100]. *)
Definition rejectedBatteryPayload (payload : bytes) : Prop :=
  match payload with
  | [] => True
  | statusByte :: _ => ~ chargeInRange (batteryByteDecoding statusByte)
  end.

Section Runs.
Context {World : Type} {hid : Hid World}.


(** [RejectedCycles self cycles world world']: from [world], [cycles]
    consecutive battery queries each return a rejected payload, and leave
    [world']. *)
Inductive RejectedCycles (self : AstroA50Client) : nat -> World -> World -> Prop :=
| RejectedCycles_O (world : World) : RejectedCycles self O world world
| RejectedCycles_S (cycles : nat) (payload : bytes) (world world1 world2 : World) :
    _query self Command.getBatteryStatus None _query_retries world = (inr payload, world1) ->
    rejectedBatteryPayload payload ->
    RejectedCycles self cycles world1 world2 ->
    RejectedCycles self (S cycles) world world2.

(** What ends a run of rejected cycles before the retries are used up: a
    query that returns an acceptable status byte, or a query that raises. *)
Definition cyclesEndedBy (self : AstroA50Client) (world1 : World)
    (outcome : (Exception + BatteryStatus) * Session World) : Prop :=
  (exists statusByte rest world2,
     _query self Command.getBatteryStatus None _query_retries world1
       = (inr (statusByte :: rest), world2) /\
     chargeInRange (batteryByteDecoding statusByte) /\
     outcome = (inr (batteryByteDecoding statusByte),
                (withLastGood self (batteryByteDecoding statusByte), world2))) \/
  (exists error world2,
     _query self Command.getBatteryStatus None _query_retries world1 = (inl error, world2) /\
     outcome = (inl error, (self, world2))).

End Runs.

(** [frame] is a request of [reportLength] bytes whose header and payload
    are the values [content]: the optional report id, [content], and only
    zero bytes after it. *)
Definition frameWithContent (reportLength : Z) (content : list Z) (frame : bytes) : Prop :=
  map byte.unsigned frame =
    (if reportLength =? 65 then [0x00] else [])
      ++ content ++ py_repeat 0 (bodyLength reportLength - len content).

(** *** The session as a caller drives it *)

(** The calls of the public API. *)
Inductive Call : Type :=
| Call_getBatteryStatus (retries : Z)
| Call_getHeadsetStatus
| Call_getSliderValue (sliderType : Z) (saved : bool)
| Call_getActiveEqPreset
| Call_getBalance
| Call_getDefaultBalance (saved : bool)
| Call_getAlertVolume (saved : bool)
| Call_getMicEq (saved : bool)
| Call_getNoiseGateMode (saved : bool)
| Call_getSnapshot (battery headset sidetone includeTimestamp : bool).

(** What a call returns to its caller. *)
Inductive Returned : Type :=
| ReturnedBattery (status : BatteryStatus)
| ReturnedHeadset (status : HeadsetStatus)
| ReturnedInt (value : Z)
| ReturnedSnapshot (snapshot : Snapshot).

(** The cache of the session holds nothing or a status within [0, 100]. *)
Definition cacheInRange (self : AstroA50Client) : Prop :=
  match lastGoodBatteryStatus self with
  | Some cached => chargeInRange cached
  | None => True
  end.

(** Every battery entry of a snapshot is within [0, 100]. *)
Definition snapshotInRange (snapshot : Snapshot) : Prop :=
  Forall (fun entry =>
            match snd entry with
            | BatteryDict _ percent => 0 <= percent <= 100
            | _ => True
            end) snapshot.

(** Every battery status handed to the caller is within [0, 100]. *)
Definition returnedInRange (outcome : Exception + Returned) : Prop :=
  match outcome with
  | inr (ReturnedBattery status) => chargeInRange status
  | inr (ReturnedSnapshot snapshot) => snapshotInRange snapshot
  | _ => True
  end.

Section Calls.
Context {World : Type} {hid : Hid World}.

Definition perform (call : Call) : M (Session World) Returned :=
  match call with
  | Call_getBatteryStatus retries =>
      status <- getBatteryStatus retries ;; ret (ReturnedBattery status)
  | Call_getHeadsetStatus =>
      status <- method getHeadsetStatus ;; ret (ReturnedHeadset status)
  | Call_getSliderValue sliderType saved =>
      value <- method (fun self => getSliderValue self sliderType saved) ;; ret (ReturnedInt value)
  | Call_getActiveEqPreset =>
      value <- method getActiveEqPreset ;; ret (ReturnedInt value)
  | Call_getBalance =>
      value <- method getBalance ;; ret (ReturnedInt value)
  | Call_getDefaultBalance saved =>
      value <- method (fun self => getDefaultBalance self saved) ;; ret (ReturnedInt value)
  | Call_getAlertVolume saved =>
      value <- method (fun self => getAlertVolume self saved) ;; ret (ReturnedInt value)
  | Call_getMicEq saved =>
      value <- method (fun self => getMicEq self saved) ;; ret (ReturnedInt value)
  | Call_getNoiseGateMode saved =>
      value <- method (fun self => getNoiseGateMode self saved) ;; ret (ReturnedInt value)
  | Call_getSnapshot battery headset sidetone includeTimestamp =>
      snapshot <- getSnapshot battery headset sidetone includeTimestamp ;;
      ret (ReturnedSnapshot snapshot)
  end.

(** A caller that makes the calls one after the other on the same session,
    going on after a call that raised. *)
Fixpoint performAll (calls : list Call) (session : Session World)
    : list (Exception + Returned) * Session World :=
  match calls with
  | [] => ([], session)
  | call :: rest =>
      match perform call session with
      | (outcome, session1) =>
          match performAll rest session1 with
          | (outcomes, session2) => (outcome :: outcomes, session2)
          end
      end
  end.

(** [self'] is [self], up to one or more assignments of an in-range status
    to its cache. *)
Definition cacheUpdatedInRange (self self' : AstroA50Client) : Prop :=
  self' = self \/
  exists status, chargeInRange status /\ self' = withLastGood self status.

(** [m] assigns only in-range statuses to the cache. *)
Definition updatesCacheInRange {A : Type} (m : M (Session World) A) : Prop :=
  forall (self : AstroA50Client) (world : World),
    cacheUpdatedInRange self (fst (snd (m (self, world)))).

(** On a session whose cache is in range, what [m] returns satisfies [Q]. *)
Definition returnsOnly {A : Type} (Q : A -> Prop) (m : M (Session World) A) : Prop :=
  forall (self : AstroA50Client) (world : World),
    cacheInRange self ->
    forall a, fst (m (self, world)) = inr a -> Q a.

End Calls.

(** *** Outcomes and traffic of a computation *)

(** Whatever the state, [m] returns only values that satisfy [Q] and
    raises only exceptions that satisfy [E]. *)
Definition outcomeSuch {S A : Type} (Q : A -> Prop) (E : Exception -> Prop) (m : M S A) : Prop :=
  forall s : S,
    match fst (m s) with
    | inr a => Q a
    | inl error => E error
    end.

(** [m] sends at most [n] frames. *)
Definition sendsAtMost {World A : Type} (n : nat) (m : M (Logged World) A) : Prop :=
  forall (world : World) (log : list bytes),
    (List.length (snd (snd (m (world, log)))) <= List.length log + n)%nat.

(** The failures the client raises itself. *)
Definition clientError (error : Exception) : Prop :=
  match error with
  | RuntimeError DeviceNotFoundError None => True
  | RuntimeError (CommunicationError _) _ => True
  | RuntimeError NoSaneBatteryValue None => True
  | RuntimeError (UnexpectedPayloadError _ _) None => True
  | _ => False
  end.

(** A frame the transport hands to the query engine. *)
Definition normalizedResponse (response : option bytes) : Prop :=
  match response with
  | Some frame => frame <> [] /\ _normalizeResponseFrame frame = frame
  | None => True
  end.

(** *** What a call puts on the wire *)

(** The header-and-payload contents of the requests a call may send. *)
Definition requestContents (call : Call) : list (list Z) :=
  match call with
  | Call_getBatteryStatus _ => [[0x02; 0x7C; 0x00]]
  | Call_getHeadsetStatus => [[0x02; 0x54; 0x00]]
  | Call_getSliderValue sliderType _ => [[0x02; 0x68; 0x01; sliderType mod 256]]
  | Call_getActiveEqPreset => [[0x02; 0x6C; 0x00]]
  | Call_getBalance => [[0x02; 0x72; 0x00]]
  | Call_getDefaultBalance saved => [[0x02; 0x77; 0x01; if saved then 1 else 0]]
  | Call_getAlertVolume saved => [[0x02; 0x7A; 0x01; if saved then 1 else 0]]
  | Call_getMicEq saved => [[0x02; 0x7B; 0x01; if saved then 1 else 0]]
  | Call_getNoiseGateMode _ => [[0x02; 0x6A; 0x00]]
  | Call_getSnapshot battery headset sidetone _ =>
      (if battery then [[0x02; 0x7C; 0x00]] else [])
        ++ (if headset then [[0x02; 0x54; 0x00]] else [])
        ++ (if sidetone then [[0x02; 0x68; 0x01; 0x05]] else [])
  end.

(** [frame] is a request with one of the [contents], sized for one of the
    report [lengths]. *)
Definition requestAmong (lengths : list Z) (contents : list (list Z)) (frame : bytes) : Prop :=
  exists reportLength content,
    In reportLength lengths /\ In content contents /\
    frameWithContent reportLength content frame.

(** The frames a call sends on a session, started with an empty record. *)
Definition framesSentBy {World : Type} {hid : Hid World}
    (call : Call) (self : AstroA50Client) (world : World) : list bytes :=
  snd (snd (snd (perform (World := Logged World) call (self, (world, []))))).

(** On a session with the report [lengths], [m] only sends frames that
    satisfy [P], and leaves the report lengths as they are. *)
Definition sessionSendsOnly {World A : Type} (lengths : list Z) (P : bytes -> Prop)
    (m : M (Session (Logged World)) A) : Prop :=
  forall (self : AstroA50Client) (world : World) (log : list bytes),
    reportLengths self = lengths -> Forall P log ->
    reportLengths (fst (snd (m (self, (world, log))))) = lengths /\
    Forall P (snd (snd (snd (m (self, (world, log)))))).

(** *** Recording every call into the binding, and the handle discipline *)

(** The calls into the hid binding, as they are recorded. *)
Inductive HidCall : Type :=
| Called_enumerate
| Called_device
| Called_open_path (devicePath : bytes)
| Called_set_nonblocking (flag : Z)
| Called_send_feature_report (frame : bytes)
| Called_get_feature_report (reportId size : Z)
| Called_write (frame : bytes)
| Called_read (size timeout : Z)
| Called_close
| Called_time.

(** Any hid binding, extended with the list of the calls made into it,
    each recorded whether it returns or raises. *)
Definition Traced (World : Type) : Type := (World * list HidCall)%type.

Definition traced {World A : Type} (call : HidCall) (m : M World A) : M (Traced World) A :=
  fun '(world, trace) =>
    match m world with
    | (outcome, world') => (outcome, (world', trace ++ [call]))
    end.

Definition tracedTotal {World A : Type} (call : HidCall) (m : World -> A * World)
    : Traced World -> A * Traced World :=
  fun '(world, trace) =>
    match m world with
    | (a, world') => (a, (world', trace ++ [call]))
    end.

#[export] Instance tracedHid {World : Type} {hid : Hid World} : Hid (Traced World) := {
  enumerate := tracedTotal Called_enumerate enumerate;
  device := traced Called_device device;
  open_path := fun devicePath => traced (Called_open_path devicePath) (open_path devicePath);
  set_nonblocking := fun flag => traced (Called_set_nonblocking flag) (set_nonblocking flag);
  send_feature_report :=
    fun frame => traced (Called_send_feature_report frame) (send_feature_report frame);
  get_feature_report :=
    fun reportId size =>
      traced (Called_get_feature_report reportId size) (get_feature_report reportId size);
  write := fun frame => traced (Called_write frame) (write frame);
  read := fun size timeout => traced (Called_read size timeout) (read size timeout);
  close := traced Called_close close;
  time_time := tracedTotal Called_time time_time
}.

    (* the input report was asked for *)












(** * Properties of the frame codec *)

Lemma len_nil {A : Type} : len (@nil A) = 0.
Proof. reflexivity. Qed.

Lemma len_cons {A : Type} (x : A) (xs : list A) : len (x :: xs) = 1 + len xs.
Proof. unfold len. cbn [List.length]. lia. Qed.

Lemma len_app {A : Type} (xs ys : list A) : len (xs ++ ys) = len xs + len ys.
Proof. unfold len. rewrite length_app. lia. Qed.

Lemma len_nonneg {A : Type} (xs : list A) : 0 <= len xs.
Proof. unfold len. lia. Qed.

Lemma len_py_repeat {A : Type} (x : A) (n : Z) : len (py_repeat x n) = Z.max 0 n.
Proof. unfold len, py_repeat. rewrite repeat_length. lia. Qed.

Lemma len_map {A B : Type} (f : A -> B) (xs : list A) : len (map f xs) = len xs.
Proof. unfold len. now rewrite length_map. Qed.

Lemma len_slice {A : Type} (xs : list A) (lo hi : Z) :
  0 <= lo -> len (slice xs lo hi) = Z.max 0 (Z.min (hi - lo) (len xs - lo)).
Proof.
  intros Hlo. unfold len, slice. rewrite length_firstn, length_skipn. lia.
Qed.

Lemma extractPayload_header (b0 b1 b2 : byte) (rest : bytes) :
  _extractPayload (b0 :: b1 :: b2 :: rest) =
    if (byte.unsigned b0 =? 0x02) && (byte.unsigned b1 =? 0x02)
    then Some (firstn (Z.to_nat (Z.min (byte.unsigned b2) (len rest))) rest)
    else None.
Proof.
  unfold _extractPayload.
  assert (Hlen : len (b0 :: b1 :: b2 :: rest) = 3 + len rest)
    by (rewrite !len_cons; lia).
  rewrite Hlen.
  pose proof (len_nonneg rest) as Hrest.
  destruct (Z.ltb_spec (3 + len rest) 3) as [Hlt | _]; [lia |].
  unfold item. cbn [nth].
  destruct (byte.unsigned b0 =? 2); cbn [negb orb andb]; [| reflexivity].
  destruct (byte.unsigned b1 =? 2); cbn [negb orb andb]; [| reflexivity].
  unfold slice. f_equal.
  replace (Z.to_nat 3) with 3%nat by reflexivity. cbn [skipn].
  f_equal. f_equal. lia.
Qed.

Lemma extractPayload_short (frame : bytes) : len frame < 3 -> _extractPayload frame = None.
Proof.
  intros Hshort. unfold _extractPayload.
  destruct (Z.ltb_spec (len frame) 3); [reflexivity | lia].
Qed.

(** C3. [_extractPayload] is absent exactly for a frame shorter than three
    bytes or whose marker or status byte is not 0x02; otherwise it is the
    slice [frame[3 : 3+n]] with [n] the length byte clamped by
    [len frame - 3], which stays inside the buffer. *)
Theorem extractPayload_absent_iff_else_clamped_slice :
  (forall frame : bytes,
     (_extractPayload frame = None <->
        len frame < 3 \/ item frame 0 <> 0x02 \/ item frame 1 <> 0x02) /\
     match _extractPayload frame with
     | None => True
     | Some payload =>
         let n := Z.min (item frame 2) (len frame - 3) in
         payload = slice frame 3 (3 + n) /\
         len payload = n /\ 0 <= n /\ 3 + n <= len frame
     end) /\
  _extractPayload [x02; x02; x01; x55] = Some [x55] /\
  _extractPayload [x02; x01; x01; x55] = None.
Proof.
  split; [| split; reflexivity].
  intros frame.
  destruct frame as [| b0 [| b1 [| b2 rest]]];
    try (rewrite extractPayload_short by (cbv; reflexivity);
         split; [split; [intros _; left; cbv; reflexivity | reflexivity] | exact I]).
  rewrite extractPayload_header.
  assert (Hlen : len (b0 :: b1 :: b2 :: rest) = 3 + len rest)
    by (rewrite !len_cons; lia).
  pose proof (len_nonneg rest) as Hrest.
  pose proof (byte.unsigned_range b2) as Hb2.
  unfold item. cbn [nth].
  destruct (Z.eqb_spec (byte.unsigned b0) 2) as [H0 | H0]; cbn [andb].
  - destruct (Z.eqb_spec (byte.unsigned b1) 2) as [H1 | H1].
    + split.
      * split; [discriminate | intros [Hs | [Hs | Hs]]; [lia | contradiction | contradiction]].
      * cbv zeta. rewrite Hlen.
        replace (3 + len rest - 3) with (len rest) by lia.
        repeat split; try lia.
        -- unfold slice. replace (Z.to_nat 3) with 3%nat by reflexivity.
           cbn [skipn]. f_equal. lia.
        -- unfold len at 1. rewrite length_firstn. unfold len in *. lia.
    + split; [| exact I]. split; [intros _; right; right; exact H1 | reflexivity].
  - split; [| exact I]. split; [intros _; right; left; exact H0 | reflexivity].
Qed.

Lemma normalizeResponseFrame_marker (rest : bytes) :
  _normalizeResponseFrame (x02 :: rest) = x02 :: rest.
Proof. reflexivity. Qed.

Lemma normalizeResponseFrame_reportId (rest : bytes) :
  _normalizeResponseFrame (x00 :: x02 :: rest) = x02 :: rest.
Proof.
  unfold _normalizeResponseFrame.
  assert (Hlen : len (x00 :: x02 :: rest) = 2 + len rest) by (rewrite !len_cons; lia).
  pose proof (len_nonneg rest) as Hrest.
  cbn [truthy]. unfold item. cbn [nth].
  replace (byte.unsigned x00 =? 0) with true by reflexivity.
  replace (byte.unsigned x02 =? 2) with true by reflexivity.
  rewrite Hlen.
  destruct (Z.gtb_spec (2 + len rest) 1) as [_ | Hle]; [reflexivity | lia].
Qed.

Lemma extractPayload_statusOk_body (lengthByte : byte) (payload padding : bytes) :
  byte.unsigned lengthByte = len payload ->
  _extractPayload (x02 :: x02 :: lengthByte :: payload ++ padding) = Some payload.
Proof.
  intros Hlength. rewrite extractPayload_header.
  replace (byte.unsigned x02 =? 2) with true by reflexivity. cbn [andb].
  rewrite Hlength, len_app.
  pose proof (len_nonneg padding) as Hpad.
  rewrite Z.min_l by lia.
  unfold len. rewrite Nat2Z.id.
  rewrite firstn_app, firstn_all, Nat.sub_diag. cbn [firstn].
  now rewrite app_nil_r.
Qed.

(** C1. For every report length of the session's candidate list and every
    payload, a well-formed status-ok response carrying that payload (with
    or without the leading report-id byte) is normalized and parsed back to
    exactly the payload.  The response does not contain the command id, so
    the statement is the same for every command. *)
Theorem extractPayload_normalize_roundtrip
    (self : AstroA50Client) (payload : bytes) (reportLength : Z) (echo : bytes) :
  In reportLength (reportLengths self) ->
  wellFormedStatusOkEcho reportLength payload echo ->
  _extractPayload (_normalizeResponseFrame echo) = Some payload.
Proof.
  intros _ (lengthByte & padding & body & Hbody & Hlength & _ & [Hecho | Hecho]);
    subst echo body.
  - rewrite normalizeResponseFrame_marker.
    now apply extractPayload_statusOk_body.
  - rewrite normalizeResponseFrame_reportId.
    now apply extractPayload_statusOk_body.
Qed.

Lemma extractPayload_normalize_roundtrip_witness :
  In 65 (reportLengths defaultClient) /\
  wellFormedStatusOkEcho 65 [x68; x05; x32; x28]
    (x00 :: x02 :: x02 :: x04 :: [x68; x05; x32; x28] ++ repeat x00 57) /\
  _extractPayload
    (_normalizeResponseFrame
       (x00 :: x02 :: x02 :: x04 :: [x68; x05; x32; x28] ++ repeat x00 57))
  = Some [x68; x05; x32; x28].
Proof.
  assert (Hin : In 65 (reportLengths defaultClient)) by (right; left; reflexivity).
  assert (Hecho : wellFormedStatusOkEcho 65 [x68; x05; x32; x28]
            (x00 :: x02 :: x02 :: x04 :: [x68; x05; x32; x28] ++ repeat x00 57)).
  { exists x04, (repeat x00 57), (x02 :: x02 :: x04 :: [x68; x05; x32; x28] ++ repeat x00 57).
    repeat split; right; reflexivity. }
  split; [exact Hin | split; [exact Hecho |]].
  exact (extractPayload_normalize_roundtrip defaultClient _ 65 _ Hin Hecho).
Defined.

Lemma byte_of_int_in_range (value : Z) :
  0 <= value < 256 ->
  exists b, byte_of_int value = Some b /\ byte.unsigned b = value.
Proof.
  intros Hrange. unfold byte_of_int.
  destruct (Z.leb_spec 0 value) as [_ | Hneg]; [| lia].
  destruct (Z.ltb_spec value 256) as [_ | Hbig]; [| lia].
  cbn [andb].
  destruct (Byte.of_N (Z.to_N value)) as [b |] eqn:Hof.
  - exists b. split; [reflexivity |].
    unfold byte.unsigned. rewrite (Byte.to_of_N _ Hof). lia.
  - apply Byte.of_N_None_iff in Hof. lia.
Qed.

Lemma py_bytes_in_range (values : list Z) :
  Forall (fun value => 0 <= value < 256) values ->
  exists frame, py_bytes values = Some frame /\ map byte.unsigned frame = values.
Proof.
  induction 1 as [| value rest Hvalue _ IH].
  - exists []. split; reflexivity.
  - destruct (byte_of_int_in_range value Hvalue) as (b & Hb & Hunsigned).
    destruct IH as (frame & Hframe & Hmap).
    exists (b :: frame). cbn [py_bytes map]. rewrite Hb, Hframe, Hunsigned, Hmap.
    split; reflexivity.
Qed.

Lemma land_0xFF_mod (value : Z) : Z.land value 0xFF = value mod 256.
Proof. change 0xFF with (Z.ones 8). now rewrite Z.land_ones by lia. Qed.

Lemma land_0xFF_range (value : Z) : 0 <= Z.land value 0xFF < 256.
Proof.
  change 0xFF with (Z.ones 8). rewrite Z.land_ones by lia.
  apply Z.mod_pos_bound. reflexivity.
Qed.

Lemma requestHeader_in_range (commandId : Z) (payload : list Z) :
  Forall (fun value => 0 <= value < 256) (requestHeader commandId payload).
Proof.
  unfold requestHeader. apply Forall_app. split.
  - repeat constructor; try lia; apply land_0xFF_range.
  - apply Forall_forall. intros value Hin. apply in_map_iff in Hin.
    destruct Hin as (original & <- & _). apply land_0xFF_range.
Qed.

Lemma py_repeat_zero_in_range (n : Z) :
  Forall (fun value => 0 <= value < 256) (py_repeat 0 n).
Proof.
  apply Forall_forall. intros value Hin. apply repeat_spec in Hin. lia.
Qed.

Lemma buildRequestFrame_unfold (commandId : Z) (payloadBytes : option (list Z))
    (reportLength : Z) :
  let header := requestHeader commandId (match payloadBytes with Some p => p | None => [] end) in
  _buildRequestFrame commandId payloadBytes reportLength =
    if reportLength =? 65 then
      match py_bytes [0x00], py_bytes (header ++ py_repeat 0 (64 - len header)) with
      | Some reportId, Some body => Some (reportId ++ body)
      | _, _ => None
      end
    else py_bytes (header ++ py_repeat 0 (reportLength - len header)).
Proof.
  destruct payloadBytes as [[| value rest] |]; reflexivity.
Qed.

(** The bytes of a request frame: it is always built, and its values are
    the optional report id, the header with the payload, and zero padding. *)
Lemma buildRequestFrame_bytes (commandId : Z) (payloadBytes : option (list Z))
    (reportLength : Z) :
  let header := requestHeader commandId (match payloadBytes with Some p => p | None => [] end) in
  exists frame,
    _buildRequestFrame commandId payloadBytes reportLength = Some frame /\
    map byte.unsigned frame =
      (if reportLength =? 65 then [0x00] else [])
        ++ header ++ py_repeat 0 (bodyLength reportLength - len header).
Proof.
  intros header.
  set (body := header ++ py_repeat 0 (bodyLength reportLength - len header)).
  assert (Hbody : Forall (fun value => 0 <= value < 256) body).
  { apply Forall_app. split;
      [apply requestHeader_in_range | apply py_repeat_zero_in_range]. }
  destruct (py_bytes_in_range body Hbody) as (frame & Hframe & Hmap).
  rewrite buildRequestFrame_unfold. fold header. cbv zeta.
  unfold body, bodyLength in *.
  destruct (reportLength =? 65).
  - exists (x00 :: frame). rewrite Hframe. split; [reflexivity |].
    cbn [map app]. now rewrite Hmap.
  - exists frame. split; [exact Hframe | exact Hmap].
Qed.

(** C4, as the code has it.  [_buildRequestFrame] never fails; its body is
    marker, command id, payload length and payload (each reduced modulo
    256) followed by [max 0 (B - 3 - len payload)] zero bytes, where [B] is
    [reportLength], or 64 when [reportLength] is 65, in which case one 0x00
    report-id byte precedes the body.  So the body has
    [max B (3 + len payload)] bytes: exactly [B] when header and payload
    fit, and nothing is cut off when they do not.  Without a payload the
    length byte is 0x00 and no payload byte is appended. *)
Theorem buildRequestFrame_layout
    (commandId : Z) (payloadBytes : option (list Z)) (reportLength : Z) :
  let payload := match payloadBytes with Some p => p | None => [] end in
  let header := requestHeader commandId payload in
  let body := header ++ py_repeat 0 (bodyLength reportLength - len header) in
  (exists frame,
     _buildRequestFrame commandId payloadBytes reportLength = Some frame /\
     map byte.unsigned frame = (if reportLength =? 65 then [0x00] else []) ++ body) /\
  len body = Z.max (bodyLength reportLength) (3 + len payload) /\
  _buildRequestFrame 0x7C None 64 = Some ([x02; x7c; x00] ++ repeat x00 61) /\
  _buildRequestFrame 0x7C None 65 = Some (x00 :: [x02; x7c; x00] ++ repeat x00 61).
Proof.
  intros payload header body.
  split; [| split; [| split; reflexivity]].
  - exact (buildRequestFrame_bytes commandId payloadBytes reportLength).
  - unfold body. rewrite len_app, len_py_repeat.
    assert (Hheader : len header = 3 + len payload).
    { unfold header, requestHeader. rewrite len_app, len_map. reflexivity. }
    lia.
Qed.

(** C4 as stated fails: a 62-byte payload gives a 65-byte body under report
    length 64, and a 66-byte frame under report length 65. *)
Lemma buildRequestFrame_body_exceeds_reportLength :
  (exists frame,
     _buildRequestFrame 0x7C (Some (repeat 0x11 62)) 64 = Some frame /\ len frame <> 64) /\
  (exists frame,
     _buildRequestFrame 0x7C (Some (repeat 0x11 62)) 65 = Some frame /\ len frame <> 65).
Proof.
  split; eexists; (split; [vm_compute; reflexivity | vm_compute; discriminate]).
Qed.

(** ** The round trip through the builder

    A frame built by [_buildRequestFrame] with the status-ok code 0x02 in
    the command slot is a status-ok response in the layout of a request;
    normalizing and parsing it gives back the payload it was built from. *)

Lemma map_unsigned_inj (xs ys : bytes) :
  map byte.unsigned xs = map byte.unsigned ys -> xs = ys.
Proof.
  revert ys. induction xs as [| x xs IH]; intros [| y ys] Hmap; try discriminate.
  - reflexivity.
  - cbn [map] in Hmap. inversion Hmap as [[Hhead Htail]].
    f_equal; [now apply byte.unsigned_inj | now apply IH].
Qed.

Lemma map_land_unsigned (payload : bytes) :
  map (fun value => Z.land value 0xFF) (map byte.unsigned payload) = map byte.unsigned payload.
Proof.
  rewrite map_map. apply map_ext. intros b. rewrite land_0xFF_mod.
  apply Z.mod_small. exact (byte.unsigned_range b).
Qed.

Lemma buildRequestFrame_statusOk_roundtrip (payload : bytes) (reportLength : Z) (frame : bytes) :
  len payload < 256 ->
  _buildRequestFrame 0x02 (Some (map byte.unsigned payload)) reportLength = Some frame ->
  _extractPayload (_normalizeResponseFrame frame) = Some payload.
Proof.
  intros Hshort Hbuild.
  destruct (buildRequestFrame_bytes 0x02 (Some (map byte.unsigned payload)) reportLength)
    as (built & Hbuilt & Hvalues).
  rewrite Hbuild in Hbuilt. inversion Hbuilt; subst built. clear Hbuilt.
  cbv zeta in Hvalues. unfold requestHeader in Hvalues.
  rewrite map_land_unsigned, len_map, !land_0xFF_mod in Hvalues.
  pose proof (len_nonneg payload) as Hlen.
  rewrite (Z.mod_small (len payload) 256) in Hvalues by lia.
  change (2 mod 256) with 2 in Hvalues.
  set (padding := bodyLength reportLength - _) in Hvalues.
  assert (Hframe : frame =
            (if reportLength =? 65 then [x00] else [])
              ++ x02 :: x02 :: byte.of_Z (len payload) :: payload ++ repeat x00 (Z.to_nat padding)).
  { apply map_unsigned_inj. rewrite Hvalues.
    destruct (reportLength =? 65); cbn [app map];
      rewrite !map_app, byte.unsigned_of_Z; unfold byte.wrap;
      rewrite (Z.mod_small (len payload)) by lia;
      unfold py_repeat; rewrite map_repeat; reflexivity. }
  rewrite Hframe.
  assert (Hlength : byte.unsigned (byte.of_Z (len payload)) = len payload).
  { rewrite byte.unsigned_of_Z. unfold byte.wrap. apply Z.mod_small. lia. }
  destruct (reportLength =? 65); cbn [app].
  - rewrite normalizeResponseFrame_reportId. now apply extractPayload_statusOk_body.
  - rewrite normalizeResponseFrame_marker. now apply extractPayload_statusOk_body.
Qed.

(** * Properties of the query engine *)

(** A sleep of an accepted length returns and changes nothing; a sleep of a
    rejected length raises. *)
Lemma sleep_then {S A : Type} (seconds : spec_float) (k : M S A) (s : S) :
  sleepError seconds = None -> (time_sleep seconds ;;; k) s = k s.
Proof. intros Haccepted. unfold bind, time_sleep. now rewrite Haccepted. Qed.

Lemma sleep_raises {S A : Type} (seconds : spec_float) (error : Exception) (k : M S A) (s : S) :
  sleepError seconds = Some error -> (time_sleep seconds ;;; k) s = (inl error, s).
Proof. intros Hrejected. unfold bind, time_sleep. now rewrite Hrejected. Qed.

(** The lengths the client sleeps for are accepted, the default delay of a
    session among them; a negative length, NaN, an infinity and a length
    beyond the 64-bit nanosecond clock are rejected, and negative zero is
    accepted. *)
Lemma sleepError_examples :
  sleepError seconds_0_03 = None /\
  sleepError seconds_0_05 = None /\
  sleepError seconds_0_06 = None /\
  sleepError defaultCommandDelaySeconds = None /\
  sleepError (S754_zero true) = None /\
  sleepError (S754_finite true 4503599627370496 (-52))
    = Some (OtherException "sleep length must be non-negative") /\
  sleepError S754_nan = Some (OtherException "Invalid value NaN (not a number)") /\
  sleepError (S754_infinity false)
    = Some (OtherException "timestamp too large to convert to C _PyTime_t") /\
  sleepError (S754_finite false 5000000000000000 1)
    = Some (OtherException "timestamp too large to convert to C _PyTime_t").
Proof. repeat split; reflexivity. Qed.

Section QueryEngine.
Context {World : Type} {hid : Hid World}.

(** One iteration of the loop of [_query], by the outcome of the body of
    its [try]; the pause of 0.06 s after a failed attempt always returns. *)
Lemma query_for_step (self : AstroA50Client) (devicePath : bytes) (commandId : Z)
    (payloadBytes : option (list Z)) (remaining : nat) (lastError : option Exception)
    (world : World) :
  _query_for self devicePath commandId payloadBytes (S remaining) lastError world =
    match _query_try self devicePath commandId payloadBytes world with
    | (inr (Some payloadFromDevice), world1) => (inr payloadFromDevice, world1)
    | (inr None, world1) =>
        _query_for self devicePath commandId payloadBytes remaining lastError world1
    | (inl error, world1) =>
        _query_for self devicePath commandId payloadBytes remaining (Some error) world1
    end.
Proof.
  cbn [_query_for].
  destruct (_query_try self devicePath commandId payloadBytes world)
    as [[error | [payload |]] world1].
  - now apply sleep_then.
  - reflexivity.
  - now apply sleep_then.
Qed.








(** The only failures of a query: no device, or no valid response. *)
Lemma query_for_raises (self : AstroA50Client) (devicePath : bytes) (commandId : Z)
    (payloadBytes : option (list Z)) (remaining : nat) :
  forall (lastError : option Exception) (world world1 : World) (error : Exception),
    _query_for self devicePath commandId payloadBytes remaining lastError world
      = (inl error, world1) ->
    exists cause, error = RuntimeError (CommunicationError commandId) cause.
Proof.
  induction remaining as [| remaining IH]; intros lastError world world1 error.
  - cbn [_query_for]. unfold raise. intros Hraise. inversion Hraise.
    exists lastError. reflexivity.
  - rewrite query_for_step.
    destruct (_query_try self devicePath commandId payloadBytes world)
      as [[raised | [payload |]] worldA]; intros Hraise.
    + exact (IH _ _ _ _ Hraise).
    + discriminate.
    + exact (IH _ _ _ _ Hraise).
Qed.

Lemma query_raises (self : AstroA50Client) (commandId : Z) (payloadBytes : option (list Z))
    (retries : Z) (world world1 : World) (error : Exception) :
  _query self commandId payloadBytes retries world = (inl error, world1) ->
  error = RuntimeError DeviceNotFoundError None \/
  exists cause, error = RuntimeError (CommunicationError commandId) cause.
Proof.
  unfold _query, _findDevicePath, bind, total.
  destruct (enumerate world) as [found worldE].
  destruct (filter (fun device => vendor_id device =? vendorId self) found).
  - unfold raise. intros Hraise. inversion Hraise. left. reflexivity.
  - unfold ret. intros Hraise. right. exact (query_for_raises _ _ _ _ _ _ _ _ _ Hraise).
Qed.

End QueryEngine.

Lemma lastRaised_snoc (responses : list (Exception + option bytes))
    (response : Exception + option bytes) :
  lastRaised (responses ++ [response]) =
    match response with
    | inl error => Some error
    | inr _ => lastRaised responses
    end.
Proof. unfold lastRaised, lastRaisedAfter. rewrite fold_left_app. reflexivity. Qed.



(** * Properties of the battery read *)

Lemma batteryStatus_of_byte (statusByte : byte) :
  mkBatteryStatus (bool_of_int (Z.land (byte.unsigned statusByte) 0x80))
                  (Z.land (byte.unsigned statusByte) 0x7F)
  = batteryByteDecoding statusByte.
Proof. destruct statusByte; reflexivity. Qed.

Lemma chargeInRange_dec (status : BatteryStatus) :
  ((0 <=? chargePercent status) && (chargePercent status <=? 100) = true)
  <-> chargeInRange status.
Proof. unfold chargeInRange. lia. Qed.

Section Battery.
Context {World : Type} {hid : Hid World}.

(** One iteration of the loop of [getBatteryStatus], by the outcome of its
    query. *)
Lemma getBatteryStatus_for_step (self : AstroA50Client) (remaining : nat) (world : World) :
  getBatteryStatus_for (S remaining) (self, world) =
    match _query self Command.getBatteryStatus None _query_retries world with
    | (inl error, world1) => (inl error, (self, world1))
    | (inr [], world1) => getBatteryStatus_for remaining (self, world1)
    | (inr (statusByte :: _), world1) =>
        if (0 <=? chargePercent (batteryByteDecoding statusByte))
           && (chargePercent (batteryByteDecoding statusByte) <=? 100)
        then (inr (batteryByteDecoding statusByte),
              (withLastGood self (batteryByteDecoding statusByte), world1))
        else getBatteryStatus_for remaining (self, world1)
    end.
Proof.
  cbn [getBatteryStatus_for]. unfold bind at 1. unfold method at 1.
  destruct (_query self Command.getBatteryStatus None _query_retries world)
    as [[error | [| statusByte rest]] world1].
  - reflexivity.
  - reflexivity.
  - unfold bind at 1.
    assert (Hlen : (len (statusByte :: rest) >=? 1) = true).
    { rewrite len_cons. pose proof (len_nonneg rest). lia. }
    rewrite Hlen. unfold item. cbn [nth].
    rewrite batteryStatus_of_byte.
    destruct ((0 <=? chargePercent (batteryByteDecoding statusByte))
              && (chargePercent (batteryByteDecoding statusByte) <=? 100));
      reflexivity.
Qed.

Lemma getBatteryStatus_for_rejected (self : AstroA50Client) (cycles : nat)
    (world world1 : World) :
  RejectedCycles self cycles world world1 ->
  forall remaining : nat,
    getBatteryStatus_for (cycles + remaining) (self, world) =
    getBatteryStatus_for remaining (self, world1).
Proof.
  induction 1 as [world | cycles payload world worldA worldB Hquery Hrejected _ IH];
    intros remaining.
  - reflexivity.
  - cbn [Nat.add]. rewrite getBatteryStatus_for_step, Hquery.
    destruct payload as [| statusByte rest]; [apply IH |].
    cbn [rejectedBatteryPayload] in Hrejected.
    rewrite <- chargeInRange_dec in Hrejected.
    destruct ((0 <=? chargePercent (batteryByteDecoding statusByte))
              && (chargePercent (batteryByteDecoding statusByte) <=? 100));
      [now contradiction Hrejected | apply IH].
Qed.

Lemma getBatteryStatus_for_run (self : AstroA50Client) (remaining : nat) :
  forall world : World,
  exists cycles world1,
    RejectedCycles self cycles world world1 /\
    (cycles = remaining \/
     (cycles < remaining)%nat /\
     cyclesEndedBy self world1 (getBatteryStatus_for remaining (self, world))).
Proof.
  induction remaining as [| remaining IH]; intros world.
  - exists O, world. split; [constructor | left; reflexivity].
  - destruct (_query self Command.getBatteryStatus None _query_retries world)
      as [[error | payload] worldA] eqn:Hquery.
    + exists O, world. split; [constructor | right]. split; [lia |].
      right. exists error, worldA. split; [exact Hquery |].
      now rewrite getBatteryStatus_for_step, Hquery.
    + assert (Hcontinue : rejectedBatteryPayload payload ->
                exists cycles world1,
                  RejectedCycles self cycles world world1 /\
                  (cycles = S remaining \/
                   (cycles < S remaining)%nat /\
                   cyclesEndedBy self world1 (getBatteryStatus_for (S remaining) (self, world)))).
      { intros Hrejected.
        destruct (IH worldA) as (cycles & worldB & Hcycles & Hend).
        assert (Hall : RejectedCycles self (S cycles) world worldB)
          by (econstructor; eassumption).
        exists (S cycles), worldB. split; [exact Hall |].
        destruct Hend as [-> | (Hless & Hended)]; [left; reflexivity | right].
        split; [lia |].
        change (S remaining) with (1 + remaining)%nat.
        rewrite (getBatteryStatus_for_rejected self 1 world worldA).
        - exact Hended.
        - econstructor; [exact Hquery | exact Hrejected | constructor]. }
      destruct payload as [| statusByte rest]; [apply Hcontinue; exact I |].
      destruct ((0 <=? chargePercent (batteryByteDecoding statusByte))
                && (chargePercent (batteryByteDecoding statusByte) <=? 100)) eqn:Hsane.
      * exists O, world. split; [constructor | right]. split; [lia |].
        left. exists statusByte, rest, worldA.
        split; [exact Hquery |]. split; [now apply chargeInRange_dec |].
        now rewrite getBatteryStatus_for_step, Hquery, Hsane.
      * apply Hcontinue. cbn [rejectedBatteryPayload].
        rewrite <- chargeInRange_dec, Hsane. discriminate.
Qed.

(** C2, amended.  [getBatteryStatus] runs at most [retries] cycles (6 by
    default), each one query followed by the decoding of its status byte.
    The first cycle whose byte decodes to a percentage in [0, 100] ends the
    call: the value is stored as the session's last good status and
    returned.  A cycle whose query raises ends the call too: the error of
    the query (no device, or no valid response) reaches the caller, whether
    or not a last good status is cached.  The cache is consulted only when
    all [retries] queries returned a payload and each payload was empty or
    decoded out of range: then the cached status is returned if there is
    one, and only without one the call fails with the
    no-sane-battery-value error. *)
Theorem getBatteryStatus_cycles_accept_or_fall_back
    (self : AstroA50Client) (retries : Z) (world : World) :
  getBatteryStatus_retries = 6 /\
  (forall cycles world1 statusByte rest world2,
     RejectedCycles self cycles world world1 ->
     Z.of_nat cycles < retries ->
     _query self Command.getBatteryStatus None _query_retries world1
       = (inr (statusByte :: rest), world2) ->
     chargeInRange (batteryByteDecoding statusByte) ->
     getBatteryStatus retries (self, world) =
       (inr (batteryByteDecoding statusByte),
        (withLastGood self (batteryByteDecoding statusByte), world2))) /\
  (forall cycles world1 error world2,
     RejectedCycles self cycles world world1 ->
     Z.of_nat cycles < retries ->
     _query self Command.getBatteryStatus None _query_retries world1 = (inl error, world2) ->
     getBatteryStatus retries (self, world) = (inl error, (self, world2)) /\
     (error = RuntimeError DeviceNotFoundError None \/
      exists cause,
        error = RuntimeError (CommunicationError Command.getBatteryStatus) cause)) /\
  (forall world1 cached,
     RejectedCycles self (Z.to_nat retries) world world1 ->
     lastGoodBatteryStatus self = Some cached ->
     getBatteryStatus retries (self, world) = (inr cached, (self, world1))) /\
  (forall world1,
     RejectedCycles self (Z.to_nat retries) world world1 ->
     lastGoodBatteryStatus self = None ->
     getBatteryStatus retries (self, world) =
       (inl (RuntimeError NoSaneBatteryValue None), (self, world1))) /\
  (forall cause session,
     getBatteryStatus retries (self, world)
       = (inl (RuntimeError NoSaneBatteryValue cause), session) ->
     lastGoodBatteryStatus self = None /\
     exists world1,
       RejectedCycles self (Z.to_nat retries) world world1 /\ session = (self, world1)) /\
  (exists cycles world1,
     RejectedCycles self cycles world world1 /\
     (cycles = Z.to_nat retries \/
      (cycles < Z.to_nat retries)%nat /\
      cyclesEndedBy self world1 (getBatteryStatus retries (self, world)))).
Proof.
  unfold getBatteryStatus.
  split; [reflexivity |]. split; [| split; [| split; [| split; [| split]]]].
  - intros cycles world1 statusByte rest world2 Hcycles Hless Hquery Hsane.
    replace (Z.to_nat retries) with (cycles + S (Z.to_nat retries - S cycles))%nat by lia.
    rewrite (getBatteryStatus_for_rejected _ _ _ _ Hcycles).
    rewrite getBatteryStatus_for_step, Hquery.
    apply chargeInRange_dec in Hsane. now rewrite Hsane.
  - intros cycles world1 error world2 Hcycles Hless Hquery.
    split; [| exact (query_raises _ _ _ _ _ _ _ Hquery)].
    replace (Z.to_nat retries) with (cycles + S (Z.to_nat retries - S cycles))%nat by lia.
    rewrite (getBatteryStatus_for_rejected _ _ _ _ Hcycles).
    now rewrite getBatteryStatus_for_step, Hquery.
  - intros world1 cached Hcycles Hcached.
    rewrite <- (Nat.add_0_r (Z.to_nat retries)).
    rewrite (getBatteryStatus_for_rejected _ _ _ _ Hcycles).
    cbn [getBatteryStatus_for]. now rewrite Hcached.
  - intros world1 Hcycles Hcached.
    rewrite <- (Nat.add_0_r (Z.to_nat retries)).
    rewrite (getBatteryStatus_for_rejected _ _ _ _ Hcycles).
    cbn [getBatteryStatus_for]. now rewrite Hcached.
  - intros cause session Hfails.
    destruct (getBatteryStatus_for_run self (Z.to_nat retries) world)
      as (cycles & world1 & Hcycles & [-> | (_ & Hended)]).
    + rewrite <- (Nat.add_0_r (Z.to_nat retries)) in Hfails.
      rewrite (getBatteryStatus_for_rejected _ _ _ _ Hcycles) in Hfails.
      cbn [getBatteryStatus_for] in Hfails.
      destruct (lastGoodBatteryStatus self); [discriminate |].
      split; [reflexivity |]. exists world1. split; [exact Hcycles |].
      now inversion Hfails.
    + rewrite Hfails in Hended.
      destruct Hended as [(statusByte & rest & world2 & _ & _ & Hout)
                         | (error & world2 & Hquery & Hout)].
      * discriminate.
      * exfalso. inversion Hout; subst error.
        destruct (query_raises _ _ _ _ _ _ _ Hquery) as [Hnone | (cause' & Hcomm)];
          discriminate.
  - exact (getBatteryStatus_for_run self (Z.to_nat retries) world).
Qed.

End Battery.

(** The example of the specification: every one of the six reads decodes
    to 127 percent while a status of 42 percent is cached. *)
Lemma getBatteryStatus_cycles_accept_or_fall_back_witness :
  let self := withLastGood defaultClient (mkBatteryStatus false 42) in
  let world := scriptedWorld (repeat (Data [x02; x02; x01; x7f]) 6) in
  exists world1,
    RejectedCycles self (Z.to_nat 6) world world1 /\
    getBatteryStatus 6 (self, world) = (inr (mkBatteryStatus false 42), (self, world1)).
Proof.
  intros self world.
  destruct (getBatteryStatus_cycles_accept_or_fall_back self 6 world)
    as (_ & _ & _ & Hfallback & _).
  assert (Hrejected : rejectedBatteryPayload [x7f]).
  { cbv [rejectedBatteryPayload chargeInRange batteryByteDecoding chargePercent].
    change (byte.unsigned x7f mod 128) with 127. lia. }
  assert (Hcycles : exists world1, RejectedCycles self (Z.to_nat 6) world world1).
  { eexists.
    do 6 (eapply RejectedCycles_S; [vm_compute; reflexivity | exact Hrejected |]).
    apply RejectedCycles_O. }
  destruct Hcycles as (world1 & Hcycles).
  exists world1. split; [exact Hcycles |].
  exact (Hfallback world1 (mkBatteryStatus false 42) Hcycles eq_refl).
Defined.

(** C2 as stated fails, the cache being no fallback for a read that fails:
    with a status of 42 percent cached and a device that never answers, the first query of
    [getBatteryStatus] exhausts its attempts and the call fails with
    CommunicationError instead of returning the cached status. *)
Lemma getBatteryStatus_fails_despite_cache :
  let self := withLastGood defaultClient (mkBatteryStatus false 42) in
  let world := scriptedWorld [] in
  lastGoodBatteryStatus self = Some (mkBatteryStatus false 42) /\
  fst (getBatteryStatus getBatteryStatus_retries (self, world)) =
    inl (RuntimeError (CommunicationError Command.getBatteryStatus) None) /\
  fst (getBatteryStatus getBatteryStatus_retries (self, world)) <>
    inr (mkBatteryStatus false 42).
Proof.
  intros self world.
  split; [reflexivity |]. split; [vm_compute; reflexivity | vm_compute; discriminate].
Qed.

Section BatteryDecoding.
Context {World : Type} {hid : Hid World}.

(** C7. The status byte of a battery payload is read as: charging flag =
    bit 0x80, charge percentage = the low seven bits.  This is the value a
    call returns for a byte it accepts; 0x85 gives charging at 5 percent
    and 0x64 gives not charging at 100 percent (shown on a device that
    answers the battery query with that one byte). *)
Theorem getBatteryStatus_decodes_flag_and_low_seven_bits
    (self : AstroA50Client) (retries : Z) (world world1 : World)
    (statusByte : byte) (rest : bytes) :
  0 < retries ->
  _query self Command.getBatteryStatus None _query_retries world
    = (inr (statusByte :: rest), world1) ->
  byte.unsigned statusByte mod 2 ^ 7 <= 100 ->
  fst (getBatteryStatus retries (self, world)) =
    inr (mkBatteryStatus (Z.testbit (byte.unsigned statusByte) 7)
                         (byte.unsigned statusByte mod 2 ^ 7)) /\
  fst (getBatteryStatus getBatteryStatus_retries
         (defaultClient, scriptedWorld [Data [x02; x02; x01; x85]]))
    = inr (mkBatteryStatus true 5) /\
  fst (getBatteryStatus getBatteryStatus_retries
         (defaultClient, scriptedWorld [Data [x02; x02; x01; x64]]))
    = inr (mkBatteryStatus false 100).
Proof.
  intros Hretries Hquery Hsane.
  split; [| split; vm_compute; reflexivity].
  unfold getBatteryStatus.
  replace (Z.to_nat retries) with (S (Z.to_nat retries - 1)) by lia.
  rewrite getBatteryStatus_for_step, Hquery.
  assert (Hrange : chargeInRange (batteryByteDecoding statusByte)).
  { unfold chargeInRange, batteryByteDecoding. cbn [chargePercent].
    change 128 with (2 ^ 7).
    pose proof (Z.mod_pos_bound (byte.unsigned statusByte) (2 ^ 7) eq_refl). lia. }
  apply chargeInRange_dec in Hrange. rewrite Hrange. reflexivity.
Qed.

End BatteryDecoding.

Lemma getBatteryStatus_decodes_flag_and_low_seven_bits_witness :
  let world := scriptedWorld [Data [x00; x02; x02; x02; xd0; x11]] in
  0 < 6 /\
  byte.unsigned xd0 mod 2 ^ 7 <= 100 /\
  fst (getBatteryStatus 6 (defaultClient, world)) = inr (mkBatteryStatus true 80).
Proof.
  intros world.
  assert (Hretries : 0 < 6) by lia.
  assert (Hsane : byte.unsigned xd0 mod 2 ^ 7 <= 100) by (vm_compute; discriminate).
  split; [exact Hretries | split; [exact Hsane |]].
  refine (proj1 (getBatteryStatus_decodes_flag_and_low_seven_bits
                   defaultClient 6 world _ xd0 [x11] Hretries _ Hsane)).
  vm_compute. reflexivity.
Defined.

(** * Properties of the slider and noise-gate reads *)

Section Decoders.
Context {World : Type} {hid : Hid World}.

(** C8. On the payload its query returns, [getSliderValue] fails with
    UnexpectedPayloadError (carrying the payload) unless the payload has at
    least four bytes, starts with the slider command id 0x68 and repeats
    the requested slider id; otherwise it returns the byte at index 2, or 3
    when [saved].  Payload 68 05 32 28 for the sidetone slider gives 50,
    and 40 when [saved]. *)
Theorem getSliderValue_checks_then_indexes
    (self : AstroA50Client) (sliderType : Z) (saved : bool)
    (world world1 : World) (payload : bytes) :
  _query self Command.getSliderValue (Some [sliderType mod 256]) _query_retries world
    = (inr payload, world1) ->
  (4 <= len payload /\ item payload 0 = 0x68 /\ item payload 1 = sliderType mod 256 ->
   getSliderValue self sliderType saved world
     = (inr (item payload (2 + (if saved then 1 else 0))), world1)) /\
  (~ (4 <= len payload /\ item payload 0 = 0x68 /\ item payload 1 = sliderType mod 256) ->
   getSliderValue self sliderType saved world
     = (inl (RuntimeError (UnexpectedPayloadError "slider" payload) None), world1)) /\
  fst (getSliderValue defaultClient SliderType.sidetone false
         (scriptedWorld [Data [x02; x02; x04; x68; x05; x32; x28]])) = inr 50 /\
  fst (getSliderValue defaultClient SliderType.sidetone true
         (scriptedWorld [Data [x02; x02; x04; x68; x05; x32; x28]])) = inr 40.
Proof.
  intros Hquery.
  assert (Hmask : Z.land sliderType 0xFF = sliderType mod 256).
  { change 0xFF with (Z.ones 8). now rewrite Z.land_ones by lia. }
  assert (Hrun : getSliderValue self sliderType saved world =
            if (len payload <? 4)
               || negb (item payload 0 =? Command.getSliderValue)
               || negb (item payload 1 =? sliderType mod 256)
            then (inl (RuntimeError (UnexpectedPayloadError "slider" payload) None), world1)
            else (inr (item payload (Z.to_nat (2 + int_of_bool saved))), world1)).
  { unfold getSliderValue. rewrite Hmask. unfold bind. rewrite Hquery.
    destruct ((len payload <? 4)
              || negb (item payload 0 =? Command.getSliderValue)
              || negb (item payload 1 =? sliderType mod 256)); reflexivity. }
  rewrite Hrun. change Command.getSliderValue with 0x68.
  split; [| split; [| split; vm_compute; reflexivity]].
  - intros (Hlen & Hcommand & Hslider).
    destruct (Z.ltb_spec (len payload) 4); [lia |].
    rewrite Hcommand, Hslider, !Z.eqb_refl. cbn [negb orb].
    destruct saved; reflexivity.
  - intros Hfails.
    destruct (Z.ltb_spec (len payload) 4); [reflexivity |].
    destruct (Z.eqb_spec (item payload 0) 0x68); [| reflexivity].
    destruct (Z.eqb_spec (item payload 1) (sliderType mod 256)); [| reflexivity].
    exfalso. apply Hfails. repeat split; assumption.
Qed.

End Decoders.

Lemma getSliderValue_checks_then_indexes_witness :
  let world := scriptedWorld [Data []; Data [x00; x02; x02; x04; x68; x05; x32; x28]] in
  exists world1,
    _query defaultClient Command.getSliderValue (Some [0x105 mod 256]) _query_retries world
      = (inr [x68; x05; x32; x28], world1) /\
    getSliderValue defaultClient 0x105 true world = (inr 40, world1).
Proof.
  intros world. eexists.
  assert (Hquery : _query defaultClient Command.getSliderValue (Some [0x105 mod 256])
                     _query_retries world = (inr [x68; x05; x32; x28], _))
    by (vm_compute; reflexivity).
  split; [exact Hquery |].
  refine (proj1 (getSliderValue_checks_then_indexes
                   defaultClient 0x105 true world _ _ Hquery) _).
  repeat split; vm_compute; congruence.
Defined.

(** * The frames a query sends *)

Section Wire.
Context {World : Type} {hid : Hid World}.
Variable P : bytes -> Prop.

Lemma sendsOnly_ret {A : Type} (a : A) : sendsOnly (World := World) P (ret a).
Proof. intros world log Hlog. exact Hlog. Qed.

Lemma sendsOnly_raise {A : Type} (error : Exception) :
  sendsOnly (World := World) (A := A) P (raise error).
Proof. intros world log Hlog. exact Hlog. Qed.

Lemma sendsOnly_sleep (seconds : spec_float) :
  sendsOnly (World := World) P (time_sleep seconds).
Proof. intros world log Hlog. unfold time_sleep. destruct (sleepError seconds); exact Hlog. Qed.

Lemma sendsOnly_bind {A B : Type} (m : M (Logged World) A) (k : A -> M (Logged World) B) :
  sendsOnly P m -> (forall a, sendsOnly P (k a)) -> sendsOnly P (bind m k).
Proof.
  intros Hm Hk world log Hlog. unfold bind.
  specialize (Hm world log Hlog).
  destruct (m (world, log)) as [[error | a] [world1 log1]]; cbn [snd] in *.
  - exact Hm.
  - exact (Hk a world1 log1 Hm).
Qed.

Lemma sendsOnly_passThrough {A : Type} (call : M World A) : sendsOnly P (passThrough call).
Proof.
  intros world log Hlog. unfold passThrough.
  destruct (call world) as [outcome world1]. exact Hlog.
Qed.

Lemma sendsOnly_total {A : Type} (call : World -> A * World) :
  sendsOnly P (total (passThroughTotal call)).
Proof.
  intros world log Hlog. unfold total, passThroughTotal.
  destruct (call world) as [a world1]. exact Hlog.
Qed.

Lemma sendsOnly_recorded (call : bytes -> M World unit) (frame : bytes) :
  P frame -> sendsOnly P (recorded call frame).
Proof.
  intros Hframe world log Hlog. unfold recorded.
  destruct (call frame world) as [outcome world1]. cbn [snd].
  apply Forall_app. split; [exact Hlog | now constructor].
Qed.

Lemma sendsOnly_except_OSError_pass {A : Type} (body : M (Logged World) A) (fallthrough : A) :
  sendsOnly P body -> sendsOnly P (except_OSError_pass body fallthrough).
Proof.
  intros Hbody world log Hlog. unfold except_OSError_pass.
  specialize (Hbody world log Hlog).
  destruct (body (world, log)) as [[error | a] state]; [destruct (isOSError error) |];
    exact Hbody.
Qed.

Lemma sendsOnly_except_Exception_pass (body : M (Logged World) unit) :
  sendsOnly P body -> sendsOnly P (except_Exception_pass body).
Proof.
  intros Hbody world log Hlog. unfold except_Exception_pass.
  specialize (Hbody world log Hlog).
  destruct (body (world, log)) as [[error | a] state]; exact Hbody.
Qed.

Lemma sendsOnly_try_finally {A : Type} (body : M (Logged World) A)
    (cleanup : M (Logged World) unit) :
  sendsOnly P body -> sendsOnly P cleanup -> sendsOnly P (try_finally body cleanup).
Proof.
  intros Hbody Hcleanup world log Hlog. unfold try_finally.
  specialize (Hbody world log Hlog).
  destruct (body (world, log)) as [outcome [world1 log1]]. cbn [snd] in *.
  exact (Hcleanup world1 log1 Hbody).
Qed.

Lemma sendsOnly_bind_ret {A B : Type} (a : A) (k : A -> M (Logged World) B) :
  sendsOnly P (k a) -> sendsOnly P (bind (ret a) k).
Proof. intros Hk world log Hlog. exact (Hk world log Hlog). Qed.

Lemma sendsOnly_bind_raise {A B : Type} (error : Exception) (k : A -> M (Logged World) B) :
  sendsOnly P (bind (raise error) k).
Proof. intros world log Hlog. exact Hlog. Qed.

Lemma sendCommandOnce_try_sendsOnly (devicePath : bytes) (commandId : Z)
    (payloadBytes : option (list Z)) (reportLength : Z) :
  (forall frame, _buildRequestFrame commandId payloadBytes reportLength = Some frame -> P frame) ->
  sendsOnly P (_sendCommandOnce_try (World := Logged World)
                 devicePath commandId payloadBytes reportLength).
Proof.
  intros Hframe. unfold _sendCommandOnce_try.
  apply sendsOnly_bind; [apply sendsOnly_passThrough | intros _].
  apply sendsOnly_bind; [apply sendsOnly_passThrough | intros _].
  destruct (_buildRequestFrame commandId payloadBytes reportLength) as [requestFrame |];
    [| apply sendsOnly_bind_raise].
  specialize (Hframe requestFrame eq_refl).
  apply sendsOnly_bind_ret.
  apply sendsOnly_bind.
  - apply sendsOnly_except_OSError_pass.
    apply sendsOnly_bind; [now apply sendsOnly_recorded | intros _].
    apply sendsOnly_bind; [apply sendsOnly_sleep | intros _].
    apply sendsOnly_bind; [apply sendsOnly_passThrough | intros featureResponse].
    destruct (truthy (Some featureResponse)); apply sendsOnly_ret.
  - intros [response |]; [apply sendsOnly_ret |].
    apply sendsOnly_except_OSError_pass.
    apply sendsOnly_bind; [now apply sendsOnly_recorded | intros _].
    apply sendsOnly_bind; [apply sendsOnly_passThrough | intros interruptResponse].
    destruct (truthy (Some interruptResponse)); apply sendsOnly_ret.
Qed.

Lemma sendCommandOnce_for_sendsOnly (devicePath : bytes) (commandId : Z)
    (payloadBytes : option (list Z)) (lengths : list Z) :
  (forall reportLength frame,
     In reportLength lengths ->
     _buildRequestFrame commandId payloadBytes reportLength = Some frame -> P frame) ->
  sendsOnly P (_sendCommandOnce_for (World := Logged World)
                 devicePath commandId payloadBytes lengths).
Proof.
  induction lengths as [| reportLength rest IH]; intros Hframes; cbn [_sendCommandOnce_for].
  - apply sendsOnly_ret.
  - apply sendsOnly_bind; [apply sendsOnly_passThrough | intros _].
    apply sendsOnly_bind.
    + apply sendsOnly_try_finally.
      * apply sendCommandOnce_try_sendsOnly. intros frame. apply Hframes. now left.
      * apply sendsOnly_except_Exception_pass, sendsOnly_passThrough.
    + intros [response |]; [apply sendsOnly_ret |].
      apply IH. intros length frame Hin. apply Hframes. now right.
Qed.

Lemma query_for_sendsOnly (self : AstroA50Client) (devicePath : bytes) (commandId : Z)
    (payloadBytes : option (list Z)) (remaining : nat) :
  (forall frame, requestFrameOf self commandId payloadBytes frame -> P frame) ->
  forall lastError,
    sendsOnly P (_query_for (World := Logged World)
                   self devicePath commandId payloadBytes remaining lastError).
Proof.
  intros Hframes.
  assert (Htry : sendsOnly P (_query_try (World := Logged World)
                                self devicePath commandId payloadBytes)).
  { unfold _query_try, _sendCommandOnce. apply sendsOnly_bind.
    - apply sendCommandOnce_for_sendsOnly. intros reportLength frame Hin Hbuild.
      apply Hframes. now exists reportLength.
    - intros responseFrame. destruct (truthy responseFrame); [| apply sendsOnly_ret].
      destruct (_extractPayload _); [| apply sendsOnly_ret].
      apply sendsOnly_bind; [apply sendsOnly_sleep | intros _; apply sendsOnly_ret]. }
  induction remaining as [| remaining IH]; intros lastError; cbn [_query_for].
  - apply sendsOnly_raise.
  - intros world log Hlog. specialize (Htry world log Hlog).
    destruct (_query_try (World := Logged World)
                self devicePath commandId payloadBytes (world, log))
      as [[error | [payload |]] [world1 log1]]; cbn [snd] in *.
    + exact (IH _ world1 log1 Htry).
    + exact Htry.
    + exact (IH _ world1 log1 Htry).
Qed.

Lemma query_sendsOnly (self : AstroA50Client) (commandId : Z)
    (payloadBytes : option (list Z)) (retries : Z) :
  (forall frame, requestFrameOf self commandId payloadBytes frame -> P frame) ->
  sendsOnly P (_query (World := Logged World) self commandId payloadBytes retries).
Proof.
  intros Hframes. unfold _query. apply sendsOnly_bind.
  - unfold _findDevicePath. apply sendsOnly_bind; [apply sendsOnly_total | intros found].
    destruct (filter _ found); [apply sendsOnly_raise | apply sendsOnly_ret].
  - intros devicePath. now apply query_for_sendsOnly.
Qed.

End Wire.

Lemma requestFrameOf_content (self : AstroA50Client) (commandId : Z)
    (payloadBytes : option (list Z)) (frame : bytes) :
  requestFrameOf self commandId payloadBytes frame ->
  exists reportLength,
    In reportLength (reportLengths self) /\
    frameWithContent reportLength
      (requestHeader commandId (match payloadBytes with Some p => p | None => [] end)) frame.
Proof.
  intros (reportLength & Hin & Hbuild).
  exists reportLength. split; [exact Hin |].
  destruct (buildRequestFrame_bytes commandId payloadBytes reportLength)
    as (built & Hbuilt & Hvalues).
  rewrite Hbuild in Hbuilt. inversion Hbuilt; subst built. exact Hvalues.
Qed.

Lemma requestHeader_one_byte (commandId value : Z) :
  requestHeader commandId [Z.land value 0xFF] = [0x02; commandId mod 256; 0x01; value mod 256].
Proof.
  unfold requestHeader. cbn [map app]. rewrite !land_0xFF_mod.
  rewrite Z.mod_mod by lia. reflexivity.
Qed.

Section Requests.
Context {World : Type} {hid : Hid World}.

(** C9. [getSliderValue] uses its [sliderType] argument only modulo 256:
    every frame it sends is the slider request whose one payload byte is
    [sliderType mod 256], a payload its query returns is accepted exactly
    when it is long enough, starts with 0x68 and has [sliderType mod 256]
    as byte 1, and two arguments congruent modulo 256 give the same
    computation on every hid binding (the same frames sent, the same
    payloads accepted, the same results). *)
Theorem getSliderValue_uses_sliderType_modulo_256
    (self : AstroA50Client) (sliderType : Z) (saved : bool) :
  (forall world : World,
     Forall (fun frame =>
               exists reportLength,
                 In reportLength (reportLengths self) /\
                 frameWithContent reportLength [0x02; 0x68; 0x01; sliderType mod 256] frame)
            (framesSent (getSliderValue self sliderType saved) world)) /\
  (forall (world world1 : World) (payload : bytes),
     _query self Command.getSliderValue (Some [sliderType mod 256]) _query_retries world
       = (inr payload, world1) ->
     ((exists value, getSliderValue self sliderType saved world = (inr value, world1)) <->
      4 <= len payload /\ item payload 0 = 0x68 /\ item payload 1 = sliderType mod 256)) /\
  (forall other : Z,
     sliderType mod 256 = other mod 256 ->
     getSliderValue (World := World) self sliderType saved = getSliderValue self other saved).
Proof.
  split; [| split].
  - intros world. unfold framesSent.
    assert (Hsends : sendsOnly
              (fun frame =>
                 exists reportLength,
                   In reportLength (reportLengths self) /\
                   frameWithContent reportLength [0x02; 0x68; 0x01; sliderType mod 256] frame)
              (getSliderValue (World := Logged World) self sliderType saved)).
    { unfold getSliderValue. apply sendsOnly_bind.
      - apply query_sendsOnly. intros frame Hrequest.
        apply requestFrameOf_content in Hrequest.
        destruct Hrequest as (reportLength & Hin & Hcontent).
        exists reportLength. split; [exact Hin |].
        rewrite requestHeader_one_byte in Hcontent. exact Hcontent.
      - intros payload.
        destruct ((len payload <? 4)
                  || negb (item payload 0 =? Command.getSliderValue)
                  || negb (item payload 1 =? Z.land sliderType 0xFF));
          [apply sendsOnly_raise | apply sendsOnly_ret]. }
    apply (Hsends world []). constructor.
  - intros world world1 payload Hquery.
    unfold getSliderValue. rewrite land_0xFF_mod. unfold bind. rewrite Hquery.
    change Command.getSliderValue with 0x68.
    destruct (Z.ltb_spec (len payload) 4) as [Hshort | Hlong]; cbn [orb].
    { split; [intros (value & Hvalue); discriminate | lia]. }
    destruct (Z.eqb_spec (item payload 0) 0x68) as [Hcommand | Hcommand]; cbn [negb orb].
    2: { split; [intros (value & Hvalue); discriminate | tauto]. }
    destruct (Z.eqb_spec (item payload 1) (sliderType mod 256)) as [Hslider | Hslider];
      cbn [negb].
    2: { split; [intros (value & Hvalue); discriminate | tauto]. }
    split; [intros _; repeat split; assumption | intros _; eexists; reflexivity].
  - intros other Hcongruent. unfold getSliderValue.
    rewrite !land_0xFF_mod, Hcongruent. reflexivity.
Qed.

(** C10. [getNoiseGateMode] queries without a payload whatever [saved]
    is: every frame it sends is marker, command id 0x6A and length byte
    0x00 followed by zero bytes only, and the interaction with the device
    is the same for both values of [saved].  [saved] only selects the byte
    returned, index 1 when false and index 2 when true, once the payload is
    found to have at least three bytes and to start with 0x6A; otherwise
    the call fails with UnexpectedPayloadError. *)
Theorem getNoiseGateMode_queries_without_payload
    (self : AstroA50Client) (saved : bool) :
  (forall world : World,
     Forall (fun frame =>
               exists reportLength,
                 In reportLength (reportLengths self) /\
                 frameWithContent reportLength [0x02; 0x6A; 0x00] frame)
            (framesSent (getNoiseGateMode self saved) world)) /\
  (forall world : World,
     snd (getNoiseGateMode self saved world) = snd (getNoiseGateMode self (negb saved) world)) /\
  (forall (world world1 : World) (payload : bytes),
     _query self Command.getNoiseGateMode None _query_retries world = (inr payload, world1) ->
     (3 <= len payload /\ item payload 0 = 0x6A ->
      getNoiseGateMode self saved world
        = (inr (item payload (if saved then 2 else 1)), world1)) /\
     (~ (3 <= len payload /\ item payload 0 = 0x6A) ->
      getNoiseGateMode self saved world
        = (inl (RuntimeError (UnexpectedPayloadError "noise gate" payload) None), world1))).
Proof.
  split; [| split].
  - intros world. unfold framesSent.
    assert (Hsends : sendsOnly
              (fun frame =>
                 exists reportLength,
                   In reportLength (reportLengths self) /\
                   frameWithContent reportLength [0x02; 0x6A; 0x00] frame)
              (getNoiseGateMode (World := Logged World) self saved)).
    { unfold getNoiseGateMode. apply sendsOnly_bind.
      - apply query_sendsOnly. intros frame Hrequest.
        exact (requestFrameOf_content _ _ _ _ Hrequest).
      - intros payload.
        destruct ((len payload <? 3) || negb (item payload 0 =? Command.getNoiseGateMode));
          [apply sendsOnly_raise | apply sendsOnly_ret]. }
    apply (Hsends world []). constructor.
  - intros world. unfold getNoiseGateMode, bind.
    destruct (_query self Command.getNoiseGateMode None _query_retries world)
      as [[error | payload] world1]; [reflexivity |].
    destruct ((len payload <? 3) || negb (item payload 0 =? Command.getNoiseGateMode));
      reflexivity.
  - intros world world1 payload Hquery.
    unfold getNoiseGateMode, bind. rewrite Hquery.
    change Command.getNoiseGateMode with 0x6A.
    split.
    + intros (Hlen & Hcommand).
      destruct (Z.ltb_spec (len payload) 3); [lia |].
      rewrite Hcommand. cbn [orb negb Z.eqb Pos.eqb]. destruct saved; reflexivity.
    + intros Hfails.
      destruct (Z.ltb_spec (len payload) 3); [reflexivity |].
      destruct (Z.eqb_spec (item payload 0) 0x6A); [| reflexivity].
      exfalso. apply Hfails. split; assumption.
Qed.

End Requests.

Lemma getSliderValue_uses_sliderType_modulo_256_witness :
  0x105 mod 256 = SliderType.sidetone mod 256 /\
  getSliderValue (World := Scripted) defaultClient 0x105 true
    = getSliderValue defaultClient SliderType.sidetone true.
Proof.
  assert (Hcongruent : 0x105 mod 256 = SliderType.sidetone mod 256) by reflexivity.
  split; [exact Hcongruent |].
  exact (proj2 (proj2 (getSliderValue_uses_sliderType_modulo_256 defaultClient 0x105 true))
           SliderType.sidetone Hcongruent).
Defined.

Lemma getNoiseGateMode_queries_without_payload_witness :
  let world := scriptedWorld [Data [x02; x02; x03; x6a; x01; x02]] in
  exists world1,
    _query defaultClient Command.getNoiseGateMode None _query_retries world
      = (inr [x6a; x01; x02], world1) /\
    getNoiseGateMode defaultClient true world = (inr 2, world1) /\
    sent world1 = [[x02; x6a; x00] ++ repeat x00 61].
Proof.
  intros world. eexists.
  assert (Hquery : _query defaultClient Command.getNoiseGateMode None _query_retries world
                     = (inr [x6a; x01; x02], _))
    by (vm_compute; reflexivity).
  split; [exact Hquery | split; [| reflexivity]].
  refine (proj1 (proj2 (proj2 (getNoiseGateMode_queries_without_payload defaultClient true))
                   world _ _ Hquery) _).
  split; vm_compute; congruence.
Defined.

(** * The battery invariant across the session *)

Lemma cacheUpdatedInRange_refl (self : AstroA50Client) : cacheUpdatedInRange self self.
Proof. now left. Qed.

Lemma cacheUpdatedInRange_trans (self self1 self2 : AstroA50Client) :
  cacheUpdatedInRange self self1 -> cacheUpdatedInRange self1 self2 ->
  cacheUpdatedInRange self self2.
Proof.
  intros [-> | (status1 & Hrange1 & ->)] [-> | (status2 & Hrange2 & ->)].
  - now left.
  - right. now exists status2.
  - right. now exists status1.
  - right. now exists status2.
Qed.

Lemma cacheUpdatedInRange_cacheInRange (self self' : AstroA50Client) :
  cacheUpdatedInRange self self' -> cacheInRange self -> cacheInRange self'.
Proof. intros [-> | (status & Hrange & ->)] Hcache; [exact Hcache | exact Hrange]. Qed.

Section Invariant.
Context {World : Type} {hid : Hid World}.

Lemma updatesCacheInRange_ret {A : Type} (a : A) :
  updatesCacheInRange (World := World) (ret a).
Proof. intros self world. apply cacheUpdatedInRange_refl. Qed.

Lemma updatesCacheInRange_bind {A B : Type}
    (m : M (Session World) A) (k : A -> M (Session World) B) :
  updatesCacheInRange m -> (forall a, updatesCacheInRange (k a)) ->
  updatesCacheInRange (bind m k).
Proof.
  intros Hm Hk self world. unfold bind. specialize (Hm self world).
  destruct (m (self, world)) as [[error | a] [self1 world1]]; cbn [fst snd] in *.
  - exact Hm.
  - exact (cacheUpdatedInRange_trans _ _ _ Hm (Hk a self1 world1)).
Qed.

Lemma updatesCacheInRange_method {A : Type} (m : AstroA50Client -> M World A) :
  updatesCacheInRange (method m).
Proof.
  intros self world. unfold method.
  destruct (m self world) as [outcome world1]. apply cacheUpdatedInRange_refl.
Qed.

Lemma returnsOnly_ret {A : Type} (Q : A -> Prop) (a : A) :
  Q a -> returnsOnly (World := World) Q (ret a).
Proof. intros Ha self world _ a' Heq. cbn in Heq. inversion Heq. now subst. Qed.

Lemma returnsOnly_bind {A B : Type} (Q : A -> Prop) (R : B -> Prop)
    (m : M (Session World) A) (k : A -> M (Session World) B) :
  updatesCacheInRange m -> returnsOnly Q m ->
  (forall a, Q a -> returnsOnly R (k a)) ->
  returnsOnly R (bind m k).
Proof.
  intros Hupdates Hm Hk self world Hcache. unfold bind.
  specialize (Hupdates self world). specialize (Hm self world Hcache).
  destruct (m (self, world)) as [[error | a] [self1 world1]]; cbn [fst snd] in *.
  - discriminate.
  - apply (Hk a (Hm a eq_refl) self1 world1).
    exact (cacheUpdatedInRange_cacheInRange _ _ Hupdates Hcache).
Qed.

Lemma returnsOnly_True {A : Type} (m : M (Session World) A) : returnsOnly (fun _ => True) m.
Proof. intros self world _ a _. exact I. Qed.

Lemma getBatteryStatus_for_outcome (remaining : nat) (self : AstroA50Client) :
  forall world : World,
  exists world1,
    (exists status,
       chargeInRange status /\
       getBatteryStatus_for remaining (self, world)
         = (inr status, (withLastGood self status, world1))) \/
    (exists cached,
       lastGoodBatteryStatus self = Some cached /\
       getBatteryStatus_for remaining (self, world) = (inr cached, (self, world1))) \/
    (exists error,
       getBatteryStatus_for remaining (self, world) = (inl error, (self, world1))).
Proof.
  induction remaining as [| remaining IH]; intros world.
  - exists world. right. cbn [getBatteryStatus_for].
    destruct (lastGoodBatteryStatus self) as [cached |].
    + left. now exists cached.
    + right. now eexists.
  - rewrite getBatteryStatus_for_step.
    destruct (_query self Command.getBatteryStatus None _query_retries world)
      as [[error | [| statusByte rest]] world1].
    + exists world1. right. right. now exists error.
    + apply IH.
    + destruct ((0 <=? chargePercent (batteryByteDecoding statusByte))
                && (chargePercent (batteryByteDecoding statusByte) <=? 100)) eqn:Hsane.
      * exists world1. left. exists (batteryByteDecoding statusByte).
        split; [now apply chargeInRange_dec | reflexivity].
      * apply IH.
Qed.

Lemma updatesCacheInRange_getBatteryStatus (retries : Z) :
  updatesCacheInRange (World := World) (getBatteryStatus retries).
Proof.
  intros self world. unfold getBatteryStatus.
  destruct (getBatteryStatus_for_outcome (Z.to_nat retries) self world)
    as (world1 & [(status & Hrange & ->) | [(cached & Hcached & ->) | (error & ->)]]);
    cbn [fst snd].
  - right. now exists status.
  - apply cacheUpdatedInRange_refl.
  - apply cacheUpdatedInRange_refl.
Qed.

Lemma returnsOnly_getBatteryStatus (retries : Z) :
  returnsOnly (World := World) chargeInRange (getBatteryStatus retries).
Proof.
  intros self world Hcache status. unfold getBatteryStatus.
  destruct (getBatteryStatus_for_outcome (Z.to_nat retries) self world)
    as (world1 & [(accepted & Hrange & ->) | [(cached & Hcached & ->) | (error & ->)]]);
    cbn [fst]; intros Heq; inversion Heq; subst.
  - exact Hrange.
  - unfold cacheInRange in Hcache. now rewrite Hcached in Hcache.
Qed.

Lemma snapshotInRange_app (snapshot : Snapshot) (key : string) (value : SnapshotValue) :
  snapshotInRange snapshot ->
  match value with
  | BatteryDict _ percent => 0 <= percent <= 100
  | _ => True
  end ->
  snapshotInRange (snapshot ++ [(key, value)]).
Proof.
  intros Hsnapshot Hvalue. apply Forall_app. split; [exact Hsnapshot |].
  constructor; [exact Hvalue | constructor].
Qed.

Lemma updatesCacheInRange_getSnapshot (battery headset sidetone includeTimestamp : bool) :
  updatesCacheInRange (World := World)
    (getSnapshot battery headset sidetone includeTimestamp).
Proof.
  unfold getSnapshot.
  destruct includeTimestamp, battery, headset, sidetone;
    repeat first
      [ apply updatesCacheInRange_ret
      | apply updatesCacheInRange_method
      | apply updatesCacheInRange_getBatteryStatus
      | apply updatesCacheInRange_bind; [| intros ?] ].
Qed.

Local Ltac updates_cache :=
  repeat first
    [ apply updatesCacheInRange_ret
    | apply updatesCacheInRange_method
    | apply updatesCacheInRange_getBatteryStatus
    | apply updatesCacheInRange_getSnapshot
    | apply updatesCacheInRange_bind; [| intros ?] ].

Lemma returnsOnly_getSnapshot (battery headset sidetone includeTimestamp : bool) :
  returnsOnly (World := World) snapshotInRange
    (getSnapshot battery headset sidetone includeTimestamp).
Proof.
  unfold getSnapshot.
  apply returnsOnly_bind with (Q := snapshotInRange).
  { destruct includeTimestamp; updates_cache. }
  { destruct includeTimestamp; [| apply returnsOnly_ret; constructor].
    apply returnsOnly_bind with (Q := fun _ => True);
      [updates_cache | apply returnsOnly_True |].
    intros now _. apply returnsOnly_ret, snapshotInRange_app; [constructor | exact I]. }
  intros snapshot1 Hsnapshot1.
  apply returnsOnly_bind with (Q := snapshotInRange).
  { destruct battery; updates_cache. }
  { destruct battery; [| now apply returnsOnly_ret].
    apply returnsOnly_bind with (Q := chargeInRange);
      [updates_cache | apply returnsOnly_getBatteryStatus |].
    intros status Hrange. apply returnsOnly_ret, snapshotInRange_app; assumption. }
  intros snapshot2 Hsnapshot2.
  apply returnsOnly_bind with (Q := snapshotInRange).
  { destruct headset; updates_cache. }
  { destruct headset; [| now apply returnsOnly_ret].
    apply returnsOnly_bind with (Q := fun _ => True);
      [updates_cache | apply returnsOnly_True |].
    intros status _. apply returnsOnly_ret, snapshotInRange_app; [assumption | exact I]. }
  intros snapshot3 Hsnapshot3.
  apply returnsOnly_bind with (Q := snapshotInRange).
  { destruct sidetone; updates_cache. }
  { destruct sidetone; [| now apply returnsOnly_ret].
    apply returnsOnly_bind with (Q := fun _ => True);
      [updates_cache | apply returnsOnly_True |].
    intros active _.
    apply returnsOnly_bind with (Q := fun _ => True);
      [updates_cache | apply returnsOnly_True |].
    intros saved _. apply returnsOnly_ret, snapshotInRange_app; [assumption | exact I]. }
  intros snapshot4 Hsnapshot4. now apply returnsOnly_ret.
Qed.

Lemma updatesCacheInRange_perform (call : Call) :
  updatesCacheInRange (World := World) (perform call).
Proof. destruct call; unfold perform; updates_cache. Qed.

Lemma returnsOnly_perform (call : Call) :
  returnsOnly (World := World) (fun returned => returnedInRange (inr returned)) (perform call).
Proof.
  destruct call; unfold perform.
  1: apply returnsOnly_bind with (Q := chargeInRange);
       [updates_cache | apply returnsOnly_getBatteryStatus |];
       intros status Hrange; now apply returnsOnly_ret.
  9: apply returnsOnly_bind with (Q := snapshotInRange);
       [updates_cache | apply returnsOnly_getSnapshot |];
       intros snapshot Hrange; now apply returnsOnly_ret.
  all: apply returnsOnly_bind with (Q := fun _ => True);
         [updates_cache | apply returnsOnly_True |];
         intros value _; now apply returnsOnly_ret.
Qed.

(** Only the battery read and the snapshot touch [self] at all. *)
Lemma perform_leaves_self (call : Call) (self : AstroA50Client) (world : World) :
  match call with
  | Call_getBatteryStatus _ | Call_getSnapshot _ _ _ _ => True
  | _ => fst (snd (perform call (self, world))) = self
  end.
Proof.
  destruct call; try exact I; unfold perform, bind, method;
    match goal with
    | |- context [?getter self ?arg world] => destruct (getter self arg world) as [[? | ?] ?]
    | |- context [?getter self world] => destruct (getter self world) as [[? | ?] ?]
    | |- context [?getter self ?arg1 ?arg2 world] =>
        destruct (getter self arg1 arg2 world) as [[? | ?] ?]
    end; reflexivity.
Qed.

Lemma performAll_in_range (calls : list Call) :
  forall (self : AstroA50Client) (world : World),
    cacheInRange self ->
    Forall returnedInRange (fst (performAll calls (self, world))) /\
    cacheInRange (fst (snd (performAll calls (self, world)))).
Proof.
  induction calls as [| call rest IH]; intros self world Hcache.
  - split; [constructor | exact Hcache].
  - cbn [performAll].
    pose proof (updatesCacheInRange_perform call self world) as Hupdated.
    pose proof (returnsOnly_perform call self world Hcache) as Hreturned.
    destruct (perform call (self, world)) as [outcome [self1 world1]]. cbn [fst snd] in *.
    assert (Hcache1 : cacheInRange self1)
      by exact (cacheUpdatedInRange_cacheInRange _ _ Hupdated Hcache).
    destruct (IH self1 world1 Hcache1) as (Houtcomes & Hfinal).
    destruct (performAll rest (self1, world1)) as [outcomes session2]. cbn [fst snd] in *.
    split; [| exact Hfinal].
    constructor; [| exact Houtcomes].
    destruct outcome as [error | returned]; [exact I | exact (Hreturned returned eq_refl)].
Qed.

(** C6. A battery status is handed to a caller only with its percentage in
    [0, 100], and the cache of the session is assigned only by a read that
    succeeded with such a status: [getBatteryStatus] either leaves the
    session as it was or stores the in-range status it returns; every call
    of the public API leaves the cache as it was or holding an in-range
    status, and only the battery read and the snapshot (which contains one)
    touch the session at all; so on a session created by [__init__] every status returned,
    alone or inside a snapshot, is in range, and the cache is absent or in
    range after any sequence of calls. *)
Theorem battery_status_in_range_across_session :
  (forall (retries : Z) (self : AstroA50Client) (world : World),
     (fst (snd (getBatteryStatus retries (self, world))) = self \/
      exists status,
        fst (getBatteryStatus retries (self, world)) = inr status /\
        chargeInRange status /\
        fst (snd (getBatteryStatus retries (self, world))) = withLastGood self status) /\
     (cacheInRange self ->
      forall status,
        fst (getBatteryStatus retries (self, world)) = inr status -> chargeInRange status)) /\
  (forall (call : Call) (self : AstroA50Client) (world : World),
     cacheUpdatedInRange self (fst (snd (perform call (self, world)))) /\
     (cacheInRange self ->
      returnedInRange (fst (perform call (self, world))) /\
      cacheInRange (fst (snd (perform call (self, world))))) /\
     match call with
     | Call_getBatteryStatus _ | Call_getSnapshot _ _ _ _ => True
     | _ => fst (snd (perform call (self, world))) = self
     end) /\
  (forall (vendorId : Z) (reportLengths : list Z) (commandDelaySeconds : spec_float)
          (calls : list Call) (world : World),
     Forall returnedInRange
       (fst (performAll calls (__init__ vendorId reportLengths commandDelaySeconds, world))) /\
     cacheInRange
       (fst (snd (performAll calls (__init__ vendorId reportLengths commandDelaySeconds, world))))).
Proof.
  split; [| split].
  - intros retries self world. split.
    + unfold getBatteryStatus.
      destruct (getBatteryStatus_for_outcome (Z.to_nat retries) self world)
        as (world1 & [(status & Hrange & ->) | [(cached & Hcached & ->) | (error & ->)]]);
        cbn [fst snd].
      * right. exists status. split; [reflexivity | split; [exact Hrange | reflexivity]].
      * now left.
      * now left.
    + intros Hcache status. exact (returnsOnly_getBatteryStatus retries self world Hcache status).
  - intros call self world.
    pose proof (updatesCacheInRange_perform call self world) as Hupdated.
    split; [exact Hupdated |].
    split; [| exact (perform_leaves_self call self world)].
    intros Hcache.
    split; [| exact (cacheUpdatedInRange_cacheInRange _ _ Hupdated Hcache)].
    pose proof (returnsOnly_perform call self world Hcache) as Hreturned.
    destruct (fst (perform call (self, world))) as [error | returned];
      [exact I | exact (Hreturned returned eq_refl)].
  - intros vendorId reportLengths commandDelaySeconds calls world.
    apply performAll_in_range. exact I.
Qed.

End Invariant.

(** A session on the scripted device: a good read of 42 percent, then a
    read that only sees 127 percent and falls back on the cache, then a
    snapshot whose battery read is answered with 100 percent. *)
Lemma battery_status_in_range_across_session_witness :
  let world :=
    scriptedWorld
      ([Data [x02; x02; x01; x2a]]
         ++ repeat (Data [x02; x02; x01; x7f]) 6
         ++ [Data [x02; x02; x01; x64]; Data [x02; x02; x01; x03]]) in
  let calls :=
    [Call_getBatteryStatus 6; Call_getBatteryStatus 6; Call_getSnapshot true true false false] in
  fst (performAll calls (defaultClient, world)) =
    [inr (ReturnedBattery (mkBatteryStatus false 42));
     inr (ReturnedBattery (mkBatteryStatus false 42));
     inr (ReturnedSnapshot [("battery"%string, BatteryDict false 100);
                            ("headset"%string, HeadsetDict true true)])] /\
  Forall returnedInRange (fst (performAll calls (defaultClient, world))).
Proof.
  intros world calls. split; [vm_compute; reflexivity |].
  exact (proj1 (proj2 (proj2 battery_status_in_range_across_session)
                  defaultVendorId defaultReportLengths defaultCommandDelaySeconds calls world)).
Defined.

(** * Further properties of the frame codec *)

Lemma normalizeResponseFrame_cases (frame : bytes) :
  (exists rest, frame = x00 :: x02 :: rest /\ _normalizeResponseFrame frame = x02 :: rest) \/
  _normalizeResponseFrame frame = frame.
Proof.
  destruct frame as [| b0 [| b1 rest]]; try (right; reflexivity).
  - right. unfold _normalizeResponseFrame. cbn [truthy].
    destruct (item [b0] 0 =? 0); reflexivity.
  - destruct (Z.eqb_spec (byte.unsigned b0) 0x00) as [H0 | H0].
    + destruct (Z.eqb_spec (byte.unsigned b1) 0x02) as [H1 | H1].
      * left. exists rest.
        assert (b0 = x00) by (apply byte.unsigned_inj; exact H0).
        assert (b1 = x02) by (apply byte.unsigned_inj; exact H1).
        subst b0 b1. split; [reflexivity | apply normalizeResponseFrame_reportId].
      * right. unfold _normalizeResponseFrame, item. cbn [truthy nth].
        apply Z.eqb_neq in H1. rewrite H1, !andb_false_r. reflexivity.
    + right. unfold _normalizeResponseFrame, item. cbn [truthy nth].
      apply Z.eqb_neq in H0. rewrite H0. reflexivity.
Qed.

(** X1. Normalizing a response frame twice is the same as normalizing it
    once: at most one report-id byte is ever removed. *)
Theorem normalizeResponseFrame_idempotent (frame : bytes) :
  _normalizeResponseFrame (_normalizeResponseFrame frame) = _normalizeResponseFrame frame.
Proof.
  destruct (normalizeResponseFrame_cases frame) as [(rest & _ & ->) | Hsame].
  - apply normalizeResponseFrame_marker.
  - now rewrite !Hsame.
Qed.

Lemma normalizeResponseFrame_nonempty (frame : bytes) :
  frame <> [] -> _normalizeResponseFrame frame <> [].
Proof.
  intros Hframe.
  destruct (normalizeResponseFrame_cases frame) as [(rest & _ & ->) | Hsame];
    [discriminate | now rewrite Hsame].
Qed.

(** X2. The two report-length conventions carry the same body: the 65-byte
    request frame, once normalized, is the frame built for report length
    64, for every command and payload. *)
Theorem normalizeResponseFrame_of_65_is_64
    (commandId : Z) (payloadBytes : option (list Z)) (frame65 frame64 : bytes) :
  _buildRequestFrame commandId payloadBytes 65 = Some frame65 ->
  _buildRequestFrame commandId payloadBytes 64 = Some frame64 ->
  _normalizeResponseFrame frame65 = frame64.
Proof.
  rewrite !buildRequestFrame_unfold. cbv zeta.
  set (header := requestHeader commandId _).
  change (65 =? 65) with true. change (64 =? 65) with false. cbv iota.
  intros H65 H64. rewrite H64 in H65.
  change (py_bytes [0]) with (Some [x00]) in H65. inversion H65; subst frame65.
  cbn [app].
  destruct frame64 as [| b0 rest].
  - exfalso. unfold header, requestHeader in H64. cbn [app py_bytes] in H64.
    destruct (byte_of_int 2); [| discriminate].
    destruct (match byte_of_int (Z.land commandId 255) with Some _ => _ | None => _ end);
      discriminate.
  - assert (b0 = x02).
    { unfold header, requestHeader in H64. cbn [app py_bytes] in H64.
      change (byte_of_int 2) with (Some x02) in H64.
      destruct (match byte_of_int (Z.land commandId 255) with Some _ => _ | None => _ end);
        [| discriminate].
      now inversion H64. }
    subst b0. apply normalizeResponseFrame_reportId.
Qed.

Lemma normalizeResponseFrame_of_65_is_64_witness :
  _buildRequestFrame 0x68 (Some [5]) 65 = Some (x00 :: [x02; x68; x01; x05] ++ repeat x00 60) /\
  _buildRequestFrame 0x68 (Some [5]) 64 = Some ([x02; x68; x01; x05] ++ repeat x00 60) /\
  _normalizeResponseFrame (x00 :: [x02; x68; x01; x05] ++ repeat x00 60)
    = [x02; x68; x01; x05] ++ repeat x00 60.
Proof.
  assert (H65 : _buildRequestFrame 0x68 (Some [5]) 65
                = Some (x00 :: [x02; x68; x01; x05] ++ repeat x00 60)) by reflexivity.
  assert (H64 : _buildRequestFrame 0x68 (Some [5]) 64
                = Some ([x02; x68; x01; x05] ++ repeat x00 60)) by reflexivity.
  split; [exact H65 | split; [exact H64 |]].
  exact (normalizeResponseFrame_of_65_is_64 0x68 (Some [5]) _ _ H65 H64).
Defined.

Lemma extractPayload_wrong_status (body : bytes) (status : Z) (values : list Z) :
  map byte.unsigned body = 2 :: status :: values ->
  status <> 2 ->
  _normalizeResponseFrame body = body /\ _extractPayload body = None.
Proof.
  intros Hmap Hstatus.
  destruct body as [| b0 [| b1 rest]]; try discriminate.
  cbn [map] in Hmap. inversion Hmap as [[H0 H1 Hrest]].
  assert (b0 = x02) by (apply byte.unsigned_inj; exact H0). subst b0.
  split; [apply normalizeResponseFrame_marker |].
  destruct rest as [| b2 rest]; [reflexivity |].
  rewrite extractPayload_header.
  destruct (Z.eqb_spec (byte.unsigned b1) 2); [congruence | reflexivity].
Qed.

(** X3. A request frame handed back unchanged is never taken for a valid
    response: unless its command byte is the status-ok code 0x02 itself,
    the normalized frame parses to no payload.  None of the commands of the
    client has that code. *)
Theorem request_frame_is_no_response
    (commandId : Z) (payloadBytes : option (list Z)) (reportLength : Z) (frame : bytes) :
  Z.land commandId 0xFF <> 0x02 ->
  _buildRequestFrame commandId payloadBytes reportLength = Some frame ->
  _extractPayload (_normalizeResponseFrame frame) = None.
Proof.
  intros Hcommand Hbuild.
  destruct (buildRequestFrame_bytes commandId payloadBytes reportLength)
    as (built & Hbuilt & Hvalues).
  rewrite Hbuild in Hbuilt. inversion Hbuilt; subst built. clear Hbuilt.
  cbv zeta in Hvalues. unfold requestHeader in Hvalues.
  destruct (reportLength =? 65); cbn [app] in Hvalues.
  - destruct frame as [| b0 body]; [discriminate |].
    cbn [map] in Hvalues. injection Hvalues as H0 Hmap.
    assert (b0 = x00) by (apply byte.unsigned_inj; exact H0). subst b0.
    destruct (extractPayload_wrong_status body _ _ Hmap Hcommand) as (_ & Hnone).
    destruct body as [| b1 rest]; [discriminate |].
    cbn [map] in Hmap. injection Hmap as H1 Hrest.
    assert (b1 = x02) by (apply byte.unsigned_inj; exact H1). subst b1.
    rewrite normalizeResponseFrame_reportId. exact Hnone.
  - destruct (extractPayload_wrong_status frame _ _ Hvalues Hcommand) as (-> & Hnone).
    exact Hnone.
Qed.

Lemma request_frame_is_no_response_witness :
  Z.land Command.getBatteryStatus 0xFF <> 0x02 /\
  _buildRequestFrame Command.getBatteryStatus None 65
    = Some (x00 :: [x02; x7c; x00] ++ repeat x00 61) /\
  _extractPayload (_normalizeResponseFrame (x00 :: [x02; x7c; x00] ++ repeat x00 61)) = None.
Proof.
  assert (Hcommand : Z.land Command.getBatteryStatus 0xFF <> 0x02) by (vm_compute; discriminate).
  assert (Hbuild : _buildRequestFrame Command.getBatteryStatus None 65
                   = Some (x00 :: [x02; x7c; x00] ++ repeat x00 61)) by reflexivity.
  split; [exact Hcommand | split; [exact Hbuild |]].
  exact (request_frame_is_no_response _ None 65 _ Hcommand Hbuild).
Defined.

(** * Further properties of the transport and the query engine *)

Section Outcomes.
Context {S : Type}.

Lemma outcomeSuch_ret {A : Type} (Q : A -> Prop) (E : Exception -> Prop) (a : A) :
  Q a -> outcomeSuch (S := S) Q E (ret a).
Proof. intros Ha s. exact Ha. Qed.

Lemma outcomeSuch_raise {A : Type} (Q : A -> Prop) (E : Exception -> Prop) (error : Exception) :
  E error -> outcomeSuch (S := S) Q E (raise error).
Proof. intros He s. exact He. Qed.

Lemma outcomeSuch_bind {A B : Type} (Q : A -> Prop) (R : B -> Prop) (E : Exception -> Prop)
    (m : M S A) (k : A -> M S B) :
  outcomeSuch Q E m -> (forall a, Q a -> outcomeSuch R E (k a)) ->
  outcomeSuch R E (bind m k).
Proof.
  intros Hm Hk s. unfold bind. specialize (Hm s).
  destruct (m s) as [[error | a] s1]; cbn [fst] in *.
  - exact Hm.
  - exact (Hk a Hm s1).
Qed.

Lemma outcomeSuch_weaken {A : Type} (Q Q' : A -> Prop) (E E' : Exception -> Prop) (m : M S A) :
  (forall a, Q a -> Q' a) -> (forall error, E error -> E' error) ->
  outcomeSuch Q E m -> outcomeSuch Q' E' m.
Proof.
  intros HQ HE Hm s. specialize (Hm s).
  destruct (fst (m s)); [now apply HE | now apply HQ].
Qed.

Lemma outcomeSuch_any {A : Type} (m : M S A) :
  outcomeSuch (fun _ => True) (fun _ => True) m.
Proof. intros s. now destruct (fst (m s)). Qed.

Lemma outcomeSuch_total {A : Type} (E : Exception -> Prop) (call : S -> A * S) :
  outcomeSuch (fun _ => True) E (total call).
Proof. intros s. unfold total. now destruct (call s). Qed.

Lemma outcomeSuch_except_OSError_pass {A : Type} (Q : A -> Prop) (E : Exception -> Prop)
    (body : M S A) (fallthrough : A) :
  outcomeSuch Q E body -> Q fallthrough ->
  outcomeSuch Q E (except_OSError_pass body fallthrough).
Proof.
  intros Hbody Hfall s. unfold except_OSError_pass. specialize (Hbody s).
  destruct (body s) as [[error | a] s1]; cbn [fst] in *.
  - destruct (isOSError error); [exact Hfall | exact Hbody].
  - exact Hbody.
Qed.

Lemma outcomeSuch_try_finally {A : Type} (Q : A -> Prop) (E : Exception -> Prop)
    (body : M S A) (cleanup : M S unit) :
  outcomeSuch Q E body -> outcomeSuch Q E (try_finally body cleanup).
Proof.
  intros Hbody s. unfold try_finally. specialize (Hbody s).
  destruct (body s) as [outcome s1]. exact Hbody.
Qed.

End Outcomes.

Section Transport.
Context {World : Type} {hid : Hid World}.

Lemma sendCommandOnce_try_normalized (devicePath : bytes) (commandId : Z)
    (payloadBytes : option (list Z)) (reportLength : Z) :
  outcomeSuch normalizedResponse (fun _ => True)
    (_sendCommandOnce_try devicePath commandId payloadBytes reportLength).
Proof.
  assert (Hreceived : forall received : bytes,
            outcomeSuch (S := World) normalizedResponse (fun _ => True)
              (if truthy (Some received)
               then ret (Some (_normalizeResponseFrame received))
               else ret None)).
  { intros [| b0 rest]; cbn [truthy]; apply outcomeSuch_ret; [exact I |].
    split; [now apply normalizeResponseFrame_nonempty |].
    destruct (normalizeResponseFrame_cases (b0 :: rest)) as [(tail & _ & ->) | Hsame];
      [apply normalizeResponseFrame_marker | now rewrite !Hsame]. }
  unfold _sendCommandOnce_try.
  eapply outcomeSuch_bind; [apply outcomeSuch_any | intros _ _].
  eapply outcomeSuch_bind; [apply outcomeSuch_any | intros _ _].
  eapply outcomeSuch_bind with (Q := fun _ => True).
  { destruct (_buildRequestFrame commandId payloadBytes reportLength);
      [now apply outcomeSuch_ret | now apply outcomeSuch_raise]. }
  intros requestFrame _.
  eapply outcomeSuch_bind with (Q := normalizedResponse).
  - apply outcomeSuch_except_OSError_pass; [| exact I].
    eapply outcomeSuch_bind; [apply outcomeSuch_any | intros _ _].
    eapply outcomeSuch_bind; [apply outcomeSuch_any | intros _ _].
    eapply outcomeSuch_bind; [apply outcomeSuch_any | intros received _].
    apply Hreceived.
  - intros [response |] Hresponse; [now apply outcomeSuch_ret |].
    apply outcomeSuch_except_OSError_pass; [| exact I].
    eapply outcomeSuch_bind; [apply outcomeSuch_any | intros _ _].
    eapply outcomeSuch_bind; [apply outcomeSuch_any | intros received _].
    apply Hreceived.
Qed.

Lemma sendCommandOnce_for_normalized (devicePath : bytes) (commandId : Z)
    (payloadBytes : option (list Z)) (lengths : list Z) :
  outcomeSuch normalizedResponse (fun _ => True)
    (_sendCommandOnce_for devicePath commandId payloadBytes lengths).
Proof.
  induction lengths as [| reportLength rest IH]; cbn [_sendCommandOnce_for].
  - now apply outcomeSuch_ret.
  - eapply outcomeSuch_bind; [apply outcomeSuch_any | intros _ _].
    eapply outcomeSuch_bind with (Q := normalizedResponse).
    + apply outcomeSuch_try_finally, sendCommandOnce_try_normalized.
    + intros [response |] Hresponse; [now apply outcomeSuch_ret | exact IH].
Qed.

(** X4. A response frame that [_sendCommandOnce] returns is never empty
    and is already normalized, whatever the device answered: the
    truthiness test [_query] makes on it always passes. *)
Theorem sendCommandOnce_response_nonempty_normalized
    (self : AstroA50Client) (devicePath : bytes) (commandId : Z)
    (payloadBytes : option (list Z)) (world world1 : World) (frame : bytes) :
  _sendCommandOnce self devicePath commandId payloadBytes world = (inr (Some frame), world1) ->
  frame <> [] /\ _normalizeResponseFrame frame = frame /\ truthy (Some frame) = true.
Proof.
  intros Hsend.
  pose proof (sendCommandOnce_for_normalized devicePath commandId payloadBytes
                (reportLengths self) world) as Hresponse.
  unfold _sendCommandOnce in Hsend. rewrite Hsend in Hresponse.
  destruct Hresponse as (Hnonempty & Hnormalized).
  repeat split; try assumption.
  destruct frame; [contradiction | reflexivity].
Qed.

End Transport.

Lemma sendCommandOnce_response_nonempty_normalized_witness :
  let world := scriptedWorld [Data []; Data [x00; x02; x02; x01; x55]] in
  exists world1,
    _sendCommandOnce defaultClient (path baseStation) Command.getBatteryStatus None world
      = (inr (Some [x02; x02; x01; x55]), world1) /\
    _normalizeResponseFrame [x02; x02; x01; x55] = [x02; x02; x01; x55].
Proof.
  intros world. eexists.
  assert (Hsend : _sendCommandOnce defaultClient (path baseStation)
                    Command.getBatteryStatus None world
                  = (inr (Some [x02; x02; x01; x55]), _)) by (vm_compute; reflexivity).
  split; [exact Hsend |].
  exact (proj1 (proj2 (sendCommandOnce_response_nonempty_normalized _ _ _ _ _ _ _ Hsend))).
Defined.

Lemma extractPayload_length (frame payload : bytes) :
  _extractPayload frame = Some payload ->
  len payload <= 255 /\ len payload <= len frame - 3.
Proof.
  intros Hpayload.
  destruct frame as [| b0 [| b1 [| b2 rest]]]; try discriminate.
  rewrite extractPayload_header in Hpayload.
  destruct ((byte.unsigned b0 =? 2) && (byte.unsigned b1 =? 2)); [| discriminate].
  inversion Hpayload; subst payload.
  pose proof (byte.unsigned_range b2) as Hb2.
  pose proof (len_nonneg rest) as Hrest.
  rewrite !len_cons. unfold len in *. rewrite length_firstn. lia.
Qed.

Section QueryOutcome.
Context {World : Type} {hid : Hid World}.

Lemma query_try_outcome (self : AstroA50Client) (devicePath : bytes) (commandId : Z)
    (payloadBytes : option (list Z)) :
  outcomeSuch
    (fun returned => match returned with
                     | Some payload => len payload <= 255
                     | None => True
                     end)
    (fun _ => True)
    (_query_try self devicePath commandId payloadBytes).
Proof.
  unfold _query_try.
  eapply outcomeSuch_bind; [apply outcomeSuch_any | intros responseFrame _].
  destruct (truthy responseFrame); [| now apply outcomeSuch_ret].
  destruct (_extractPayload _) as [payload |] eqn:Hpayload; [| now apply outcomeSuch_ret].
  eapply outcomeSuch_bind; [apply outcomeSuch_any | intros _ _].
  apply outcomeSuch_ret. exact (proj1 (extractPayload_length _ _ Hpayload)).
Qed.

Lemma query_for_outcome (self : AstroA50Client) (devicePath : bytes) (commandId : Z)
    (payloadBytes : option (list Z)) (remaining : nat) :
  forall lastError,
    outcomeSuch (fun payload => len payload <= 255)
      (fun error => exists cause, error = RuntimeError (CommunicationError commandId) cause)
      (_query_for self devicePath commandId payloadBytes remaining lastError).
Proof.
  induction remaining as [| remaining IH]; intros lastError world; cbn [_query_for].
  - cbn. now exists lastError.
  - pose proof (query_try_outcome self devicePath commandId payloadBytes world) as Htry.
    destruct (_query_try self devicePath commandId payloadBytes world)
      as [[error | [payload |]] world1]; cbn [fst] in *.
    + apply IH.
    + exact Htry.
    + apply IH.
Qed.

Lemma query_outcome (self : AstroA50Client) (commandId : Z)
    (payloadBytes : option (list Z)) (retries : Z) :
  outcomeSuch (fun payload => len payload <= 255)
    (fun error =>
       error = RuntimeError DeviceNotFoundError None \/
       exists cause, error = RuntimeError (CommunicationError commandId) cause)
    (_query self commandId payloadBytes retries).
Proof.
  unfold _query.
  eapply outcomeSuch_bind with (Q := fun _ => True).
  - unfold _findDevicePath.
    eapply outcomeSuch_bind; [apply outcomeSuch_total | intros found _].
    destruct (filter _ found); [apply outcomeSuch_raise; now left | now apply outcomeSuch_ret].
  - intros devicePath _.
    eapply outcomeSuch_weaken; [| | apply query_for_outcome]; [trivial | intros error; now right].
Qed.

(** X5. A payload returned by a query is never longer than 255 bytes,
    whatever the device sends and however long its report is. *)
Theorem query_payload_at_most_255_bytes
    (self : AstroA50Client) (commandId : Z) (payloadBytes : option (list Z)) (retries : Z)
    (world world1 : World) (payload : bytes) :
  _query self commandId payloadBytes retries world = (inr payload, world1) ->
  len payload <= 255.
Proof.
  intros Hquery.
  pose proof (query_outcome self commandId payloadBytes retries world) as Houtcome.
  now rewrite Hquery in Houtcome.
Qed.

End QueryOutcome.

Lemma query_payload_at_most_255_bytes_witness :
  let world := scriptedWorld [Data (x02 :: x02 :: xff :: repeat x41 300)] in
  exists world1,
    _query defaultClient Command.getBatteryStatus None 4 world = (inr (repeat x41 255), world1) /\
    len (repeat x41 255) <= 255.
Proof.
  intros world. eexists.
  assert (Hquery : _query defaultClient Command.getBatteryStatus None 4 world
                   = (inr (repeat x41 255), _)) by (vm_compute; reflexivity).
  split; [exact Hquery |].
  exact (query_payload_at_most_255_bytes _ _ _ _ _ _ _ Hquery).
Defined.

(** * How many frames a call sends *)

Section Traffic.
Context {World : Type} {hid : Hid World}.

Lemma sendsAtMost_weaken {A : Type} (n n' : nat) (m : M (Logged World) A) :
  (n <= n')%nat -> sendsAtMost n m -> sendsAtMost n' m.
Proof. intros Hle Hm world log. specialize (Hm world log). lia. Qed.

Lemma sendsAtMost_ret {A : Type} (a : A) : sendsAtMost (World := World) 0 (ret a).
Proof. intros world log. cbn. lia. Qed.

Lemma sendsAtMost_raise {A : Type} (error : Exception) :
  sendsAtMost (World := World) (A := A) 0 (raise error).
Proof. intros world log. cbn. lia. Qed.

Lemma sendsAtMost_sleep (seconds : spec_float) :
  sendsAtMost (World := World) 0 (time_sleep seconds).
Proof. intros world log. unfold time_sleep. destruct (sleepError seconds); cbn; lia. Qed.

Lemma sendsAtMost_bind {A B : Type} (n1 n2 : nat)
    (m : M (Logged World) A) (k : A -> M (Logged World) B) :
  sendsAtMost n1 m -> (forall a, sendsAtMost n2 (k a)) -> sendsAtMost (n1 + n2) (bind m k).
Proof.
  intros Hm Hk world log. unfold bind. specialize (Hm world log).
  destruct (m (world, log)) as [[error | a] [world1 log1]]; cbn [snd] in *.
  - lia.
  - specialize (Hk a world1 log1). lia.
Qed.

Lemma sendsAtMost_passThrough {A : Type} (call : M World A) : sendsAtMost 0 (passThrough call).
Proof.
  intros world log. unfold passThrough. destruct (call world) as [outcome world1]. cbn. lia.
Qed.

Lemma sendsAtMost_total {A : Type} (call : World -> A * World) :
  sendsAtMost 0 (total (passThroughTotal call)).
Proof.
  intros world log. unfold total, passThroughTotal. destruct (call world) as [a world1].
  cbn. lia.
Qed.

Lemma sendsAtMost_recorded (call : bytes -> M World unit) (frame : bytes) :
  sendsAtMost 1 (recorded call frame).
Proof.
  intros world log. unfold recorded. destruct (call frame world) as [outcome world1].
  cbn [snd]. rewrite length_app. cbn. lia.
Qed.

Lemma sendsAtMost_except_OSError_pass {A : Type} (n : nat)
    (body : M (Logged World) A) (fallthrough : A) :
  sendsAtMost n body -> sendsAtMost n (except_OSError_pass body fallthrough).
Proof.
  intros Hbody world log. unfold except_OSError_pass. specialize (Hbody world log).
  destruct (body (world, log)) as [[error | a] state]; [destruct (isOSError error) |];
    exact Hbody.
Qed.

Lemma sendsAtMost_try_finally_close {A : Type} (n : nat) (body : M (Logged World) A) :
  sendsAtMost n body ->
  sendsAtMost n (try_finally body (except_Exception_pass close)).
Proof.
  intros Hbody world log. unfold try_finally, except_Exception_pass.
  specialize (Hbody world log).
  destruct (body (world, log)) as [outcome [world1 log1]]. cbn [snd] in *.
  change (@close (Logged World) loggedHid) with (passThrough (@close World hid)).
  unfold passThrough. destruct (close world1) as [[error | done] world2]; exact Hbody.
Qed.

Lemma sendCommandOnce_try_sendsAtMost (devicePath : bytes) (commandId : Z)
    (payloadBytes : option (list Z)) (reportLength : Z) :
  sendsAtMost 2 (_sendCommandOnce_try (World := Logged World)
                   devicePath commandId payloadBytes reportLength).
Proof.
  unfold _sendCommandOnce_try.
  apply (sendsAtMost_bind 0 2); [apply sendsAtMost_passThrough | intros _].
  apply (sendsAtMost_bind 0 2); [apply sendsAtMost_passThrough | intros _].
  apply (sendsAtMost_bind 0 2).
  { destruct (_buildRequestFrame commandId payloadBytes reportLength);
      [apply sendsAtMost_ret | apply sendsAtMost_raise]. }
  intros requestFrame.
  apply (sendsAtMost_bind 1 1).
  - apply sendsAtMost_except_OSError_pass.
    apply (sendsAtMost_bind 1 0); [apply sendsAtMost_recorded | intros _].
    apply (sendsAtMost_bind 0 0); [apply sendsAtMost_sleep | intros _].
    apply (sendsAtMost_bind 0 0); [apply sendsAtMost_passThrough | intros received].
    destruct (truthy (Some received)); apply sendsAtMost_ret.
  - intros [response |]; [apply (sendsAtMost_weaken 0); [lia | apply sendsAtMost_ret] |].
    apply sendsAtMost_except_OSError_pass.
    apply (sendsAtMost_bind 1 0); [apply sendsAtMost_recorded | intros _].
    apply (sendsAtMost_bind 0 0); [apply sendsAtMost_passThrough | intros received].
    destruct (truthy (Some received)); apply sendsAtMost_ret.
Qed.

Lemma sendCommandOnce_for_sendsAtMost (devicePath : bytes) (commandId : Z)
    (payloadBytes : option (list Z)) (lengths : list Z) :
  sendsAtMost (2 * List.length lengths)
    (_sendCommandOnce_for (World := Logged World) devicePath commandId payloadBytes lengths).
Proof.
  induction lengths as [| reportLength rest IH]; cbn [_sendCommandOnce_for].
  - apply sendsAtMost_ret.
  - apply (sendsAtMost_weaken (0 + (2 + 2 * List.length rest))); [cbn [List.length]; lia |].
    apply sendsAtMost_bind; [apply sendsAtMost_passThrough | intros _].
    apply sendsAtMost_bind.
    + apply sendsAtMost_try_finally_close, sendCommandOnce_try_sendsAtMost.
    + intros [response |]; [| exact IH].
      apply (sendsAtMost_weaken 0); [lia | apply sendsAtMost_ret].
Qed.

Lemma query_sendsAtMost (self : AstroA50Client) (commandId : Z)
    (payloadBytes : option (list Z)) (retries : Z) :
  sendsAtMost (Z.to_nat retries * (2 * List.length (reportLengths self)))
    (_query (World := Logged World) self commandId payloadBytes retries).
Proof.
  unfold _query.
  apply (sendsAtMost_bind 0).
  { unfold _findDevicePath.
    apply (sendsAtMost_bind 0 0); [apply sendsAtMost_total | intros found].
    destruct (filter _ found); [apply sendsAtMost_raise | apply sendsAtMost_ret]. }
  intros devicePath.
  assert (Htry : sendsAtMost (2 * List.length (reportLengths self))
                   (_query_try (World := Logged World)
                      self devicePath commandId payloadBytes)).
  { unfold _query_try, _sendCommandOnce.
    apply (sendsAtMost_weaken (2 * List.length (reportLengths self) + 0)); [lia |].
    apply sendsAtMost_bind; [apply sendCommandOnce_for_sendsAtMost | intros responseFrame].
    destruct (truthy responseFrame); [| apply sendsAtMost_ret].
    destruct (_extractPayload _); [| apply sendsAtMost_ret].
    apply (sendsAtMost_bind 0 0); [apply sendsAtMost_sleep | intros _; apply sendsAtMost_ret]. }
  generalize (@None Exception).
  induction (Z.to_nat retries) as [| remaining IH]; intros lastError.
  - apply sendsAtMost_raise.
  - intros world log. rewrite query_for_step. specialize (Htry world log).
    destruct (_query_try (World := Logged World)
                self devicePath commandId payloadBytes (world, log))
      as [[error | [payload |]] [world1 log1]]; cbn [snd] in *.
    + specialize (IH (Some error) world1 log1). lia.
    + lia.
    + specialize (IH lastError world1 log1). lia.
Qed.

(** X6. A query sends at most two frames (one feature report, one output
    report) per candidate report length and attempt:
    [2 * len(reportLengths) * retries] frames in all, 16 with the defaults. *)
Theorem query_sends_at_most_two_frames_per_length_and_attempt
    (self : AstroA50Client) (commandId : Z) (payloadBytes : option (list Z))
    (retries : Z) (world : World) :
  len (framesSent (_query self commandId payloadBytes retries) world)
    <= 2 * len (reportLengths self) * Z.max 0 retries.
Proof.
  pose proof (query_sendsAtMost self commandId payloadBytes retries world []) as Hbound.
  unfold framesSent, len. cbn [List.length] in Hbound. nia.
Qed.

End Traffic.

Lemma query_sends_at_most_two_frames_per_length_and_attempt_witness :
  len (framesSent (_query defaultClient Command.getBatteryStatus None 4) (scriptedWorld []))
    = 16 /\
  len (framesSent (_query defaultClient Command.getBatteryStatus None 4) (scriptedWorld []))
    <= 2 * len (reportLengths defaultClient) * Z.max 0 4.
Proof.
  split; [vm_compute; reflexivity |].
  exact (query_sends_at_most_two_frames_per_length_and_attempt
           defaultClient Command.getBatteryStatus None 4 (scriptedWorld [])).
Defined.

(** * Calls on a session without a device *)

Section NoDevice.
Context {World : Type} {hid : Hid World}.

Lemma query_no_device (self : AstroA50Client) (commandId : Z) (payloadBytes : option (list Z))
    (retries : Z) (world world1 : World) (found : list DeviceInfo) :
  enumerate world = (found, world1) ->
  filter (fun device => vendor_id device =? vendorId self) found = [] ->
  _query self commandId payloadBytes retries world
    = (inl (RuntimeError DeviceNotFoundError None), world1).
Proof.
  intros Henumerate Hnone. unfold _query, _findDevicePath, bind, total.
  now rewrite Henumerate, Hnone.
Qed.

(** X7. When the enumeration has no device of the session's vendor id,
    every getter fails with DeviceNotFoundError having done nothing but
    enumerate: the world is the one the enumeration left and the session
    is untouched.  The battery read fails in this way even when a last
    good status is cached, and so does a snapshot (taken without
    timestamp) that asks for any part. *)
Theorem calls_fail_without_device
    (call : Call) (self : AstroA50Client) (world world1 : World) (found : list DeviceInfo) :
  enumerate world = (found, world1) ->
  filter (fun device => vendor_id device =? vendorId self) found = [] ->
  match call with
  | Call_getBatteryStatus retries => 0 < retries
  | Call_getSnapshot battery headset sidetone includeTimestamp =>
      includeTimestamp = false /\ (battery || headset || sidetone = true)
  | _ => True
  end ->
  perform call (self, world) = (inl (RuntimeError DeviceNotFoundError None), (self, world1)).
Proof.
  intros Henumerate Hnone Hcall.
  assert (Hquery : forall commandId payloadBytes retries,
            _query self commandId payloadBytes retries world
              = (inl (RuntimeError DeviceNotFoundError None), world1))
    by (intros; now apply (query_no_device _ _ _ _ _ _ found)).
  assert (Hbattery : forall retries, 0 < retries ->
            getBatteryStatus retries (self, world)
              = (inl (RuntimeError DeviceNotFoundError None), (self, world1))).
  { intros retries Hretries. unfold getBatteryStatus.
    replace (Z.to_nat retries) with (S (Z.to_nat retries - 1)) by lia.
    now rewrite getBatteryStatus_for_step, Hquery. }
  destruct call as [retries | | sliderType saved | | | saved | saved | saved | saved
                   | battery headset sidetone includeTimestamp];
    unfold perform.
  - unfold bind. now rewrite (Hbattery retries Hcall).
  - unfold bind, method, getHeadsetStatus, bind. now rewrite Hquery.
  - unfold bind, method, getSliderValue, bind. now rewrite Hquery.
  - unfold bind, method, getActiveEqPreset, bind. now rewrite Hquery.
  - unfold bind, method, getBalance, bind. now rewrite Hquery.
  - unfold bind, method, getDefaultBalance, bind. now rewrite Hquery.
  - unfold bind, method, getAlertVolume, bind. now rewrite Hquery.
  - unfold bind, method, getMicEq, bind. now rewrite Hquery.
  - unfold bind, method, getNoiseGateMode, bind. now rewrite Hquery.
  - destruct Hcall as (-> & Hparts). unfold getSnapshot.
    destruct battery.
    + unfold bind, ret. rewrite (Hbattery getBatteryStatus_retries) by reflexivity.
      reflexivity.
    + destruct headset.
      * unfold bind, ret, method, getHeadsetStatus, bind. now rewrite Hquery.
      * destruct sidetone; [| discriminate].
        unfold bind, ret, method, getSliderValue, bind. now rewrite Hquery.
Qed.

End NoDevice.

Lemma calls_fail_without_device_witness :
  let self := withLastGood defaultClient (mkBatteryStatus false 42) in
  let world := mkScripted [mkDeviceInfo 0x046D [x2f]] [Data [x02; x02; x01; x2a]] []
                 (S754_zero false) in
  enumerate world = ([mkDeviceInfo 0x046D [x2f]], world) /\
  0 < 6 /\
  perform (Call_getBatteryStatus 6) (self, world)
    = (inl (RuntimeError DeviceNotFoundError None), (self, world)).
Proof.
  intros self world.
  assert (Henumerate : enumerate world = ([mkDeviceInfo 0x046D [x2f]], world)) by reflexivity.
  assert (Hretries : 0 < 6) by lia.
  split; [exact Henumerate | split; [exact Hretries |]].
  exact (calls_fail_without_device (Call_getBatteryStatus 6) self world world _
           Henumerate eq_refl Hretries).
Defined.

(** * Further properties of the public API *)

Lemma item_range (payload : bytes) (index : nat) : 0 <= item payload index <= 255.
Proof. unfold item. pose proof (byte.unsigned_range (nth index payload x00)). lia. Qed.

Lemma headsetStatus_of_byte (statusByte : byte) :
  mkHeadsetStatus (bool_of_int (Z.land (byte.unsigned statusByte) 0x01))
                  (bool_of_int (Z.land (byte.unsigned statusByte) 0x02))
  = mkHeadsetStatus (Z.testbit (byte.unsigned statusByte) 0)
                    (Z.testbit (byte.unsigned statusByte) 1).
Proof. destruct statusByte; reflexivity. Qed.

Section PublicApi.
Context {World : Type} {hid : Hid World}.

(** X8. After a battery read that returns a status, the cache of the
    session holds exactly that status, whether it was read from the device
    or taken from the cache. *)
Theorem getBatteryStatus_returns_what_is_cached
    (retries : Z) (self self1 : AstroA50Client) (world world1 : World)
    (status : BatteryStatus) :
  getBatteryStatus retries (self, world) = (inr status, (self1, world1)) ->
  lastGoodBatteryStatus self1 = Some status.
Proof.
  unfold getBatteryStatus.
  destruct (getBatteryStatus_for_outcome (Z.to_nat retries) self world)
    as (worldA & [(accepted & _ & ->) | [(cached & Hcached & ->) | (error & ->)]]);
    intros Heq; inversion Heq; subst.
  - reflexivity.
  - exact Hcached.
Qed.

(** X9. No call of the public API changes the configuration of the
    session: the vendor id and the candidate report lengths stay as
    [__init__] set them. *)
Theorem perform_keeps_configuration (call : Call) (self : AstroA50Client) (world : World) :
  vendorId (fst (snd (perform call (self, world)))) = vendorId self /\
  reportLengths (fst (snd (perform call (self, world)))) = reportLengths self.
Proof.
  destruct (updatesCacheInRange_perform call self world) as [-> | (status & _ & ->)];
    split; reflexivity.
Qed.

(** X10. On the payload its query returns, [getHeadsetStatus] fails with
    UnexpectedPayloadError when the payload is empty, and otherwise reads
    bit 0x01 of its first byte as docked and bit 0x02 as switched on. *)
Theorem getHeadsetStatus_decodes_two_low_bits
    (self : AstroA50Client) (world world1 : World) (payload : bytes) :
  _query self Command.getHeadsetStatus None _query_retries world = (inr payload, world1) ->
  getHeadsetStatus self world =
    match payload with
    | [] => (inl (RuntimeError (UnexpectedPayloadError "headset status" []) None), world1)
    | statusByte :: _ =>
        (inr (mkHeadsetStatus (Z.testbit (byte.unsigned statusByte) 0)
                              (Z.testbit (byte.unsigned statusByte) 1)), world1)
    end.
Proof.
  intros Hquery. unfold getHeadsetStatus, bind. rewrite Hquery.
  destruct payload as [| statusByte rest]; [reflexivity |].
  assert (Hlen : (len (statusByte :: rest) <? 1) = false).
  { rewrite len_cons. pose proof (len_nonneg rest). lia. }
  rewrite Hlen. unfold item. cbn [nth]. now rewrite headsetStatus_of_byte.
Qed.

Local Ltac byte_getter getter :=
  unfold getter, bind;
  destruct (_query _ _ _ _ _) as [[? | ?] ?];
  try discriminate;
  match goal with
  | |- context [if ?test then _ else _] => destruct test
  end;
  try discriminate;
  cbn [fst]; intros Heq; inversion Heq; apply item_range.

(** X11. Every value the integer getters return (slider value, equalizer
    preset, balance, default balance, alert volume, microphone equalizer,
    noise-gate mode) is one byte of the payload: it lies in [0, 255]. *)
Theorem integer_getters_return_a_byte
    (call : Call) (self : AstroA50Client) (world : World) (value : Z) :
  fst (perform call (self, world)) = inr (ReturnedInt value) ->
  0 <= value <= 255.
Proof.
  destruct call; unfold perform, bind, method.
  1: destruct (getBatteryStatus retries (self, world)) as [[error | status] session];
       discriminate.
  1: destruct (getHeadsetStatus self world) as [[error | status] world1]; discriminate.
  8: destruct (getSnapshot battery headset sidetone includeTimestamp (self, world))
       as [[error | snapshot] session]; discriminate.
  - byte_getter @getSliderValue.
  - byte_getter @getActiveEqPreset.
  - byte_getter @getBalance.
  - byte_getter @getDefaultBalance.
  - byte_getter @getAlertVolume.
  - byte_getter @getMicEq.
  - byte_getter @getNoiseGateMode.
Qed.

End PublicApi.

Lemma getBatteryStatus_returns_what_is_cached_witness :
  let world := scriptedWorld [Data [x02; x02; x01; x2a]] in
  exists self1 world1,
    getBatteryStatus 6 (defaultClient, world)
      = (inr (mkBatteryStatus false 42), (self1, world1)) /\
    lastGoodBatteryStatus self1 = Some (mkBatteryStatus false 42).
Proof.
  intros world. eexists. eexists.
  assert (Hread : getBatteryStatus 6 (defaultClient, world)
                  = (inr (mkBatteryStatus false 42), (_, _))) by (vm_compute; reflexivity).
  split; [exact Hread |].
  exact (getBatteryStatus_returns_what_is_cached _ _ _ _ _ _ Hread).
Defined.

Lemma getHeadsetStatus_decodes_two_low_bits_witness :
  let world := scriptedWorld [Data [x02; x02; x01; x03]] in
  exists world1,
    _query defaultClient Command.getHeadsetStatus None _query_retries world
      = (inr [x03], world1) /\
    getHeadsetStatus defaultClient world = (inr (mkHeadsetStatus true true), world1).
Proof.
  intros world. eexists.
  assert (Hquery : _query defaultClient Command.getHeadsetStatus None _query_retries world
                   = (inr [x03], _)) by (vm_compute; reflexivity).
  split; [exact Hquery |].
  exact (getHeadsetStatus_decodes_two_low_bits _ _ _ _ Hquery).
Defined.

Lemma integer_getters_return_a_byte_witness :
  let world := scriptedWorld [Data [x02; x02; x03; x6a; x01; xff]] in
  fst (perform (Call_getNoiseGateMode true) (defaultClient, world)) = inr (ReturnedInt 255) /\
  0 <= 255 <= 255.
Proof.
  intros world.
  assert (Hcall : fst (perform (Call_getNoiseGateMode true) (defaultClient, world))
                  = inr (ReturnedInt 255)) by (vm_compute; reflexivity).
  split; [exact Hcall |].
  exact (integer_getters_return_a_byte _ _ _ _ Hcall).
Defined.

(** * The failures a caller can see *)

Section Failures.
Context {World : Type} {hid : Hid World}.

Lemma query_clientError (self : AstroA50Client) (commandId : Z)
    (payloadBytes : option (list Z)) (retries : Z) :
  outcomeSuch (fun _ => True) clientError (_query self commandId payloadBytes retries).
Proof.
  eapply outcomeSuch_weaken; [| | apply query_outcome]; [trivial |].
  intros error [-> | (cause & ->)]; exact I.
Qed.

Lemma outcomeSuch_method {A : Type} (Q : A -> Prop) (E : Exception -> Prop)
    (m : AstroA50Client -> M World A) :
  (forall self, outcomeSuch Q E (m self)) -> outcomeSuch Q E (method m).
Proof.
  intros Hm [self world]. unfold method. specialize (Hm self world).
  destruct (m self world) as [outcome world1]. exact Hm.
Qed.

Local Ltac getter_outcome :=
  intros self; eapply outcomeSuch_bind; [apply query_clientError | intros payload _];
  match goal with
  | |- context [if ?test then _ else _] => destruct test
  end;
  [now apply outcomeSuch_raise | now apply outcomeSuch_ret].

Lemma getHeadsetStatus_clientError :
  forall self, outcomeSuch (fun _ => True) clientError (getHeadsetStatus self).
Proof. unfold getHeadsetStatus. getter_outcome. Qed.

Lemma getSliderValue_clientError (sliderType : Z) (saved : bool) :
  forall self, outcomeSuch (fun _ => True) clientError (getSliderValue self sliderType saved).
Proof. unfold getSliderValue. getter_outcome. Qed.

Lemma getActiveEqPreset_clientError :
  forall self, outcomeSuch (fun _ => True) clientError (getActiveEqPreset self).
Proof. unfold getActiveEqPreset. getter_outcome. Qed.

Lemma getBalance_clientError :
  forall self, outcomeSuch (fun _ => True) clientError (getBalance self).
Proof. unfold getBalance. getter_outcome. Qed.

Lemma getDefaultBalance_clientError (saved : bool) :
  forall self, outcomeSuch (fun _ => True) clientError (getDefaultBalance self saved).
Proof. unfold getDefaultBalance. getter_outcome. Qed.

Lemma getAlertVolume_clientError (saved : bool) :
  forall self, outcomeSuch (fun _ => True) clientError (getAlertVolume self saved).
Proof. unfold getAlertVolume. getter_outcome. Qed.

Lemma getMicEq_clientError (saved : bool) :
  forall self, outcomeSuch (fun _ => True) clientError (getMicEq self saved).
Proof. unfold getMicEq. getter_outcome. Qed.

Lemma getNoiseGateMode_clientError (saved : bool) :
  forall self, outcomeSuch (fun _ => True) clientError (getNoiseGateMode self saved).
Proof. unfold getNoiseGateMode. getter_outcome. Qed.

Lemma getBatteryStatus_clientError (retries : Z) :
  outcomeSuch (fun _ => True) clientError (getBatteryStatus retries).
Proof.
  unfold getBatteryStatus.
  induction (Z.to_nat retries) as [| remaining IH]; cbn [getBatteryStatus_for].
  - intros [self world]. now destruct (lastGoodBatteryStatus self).
  - eapply outcomeSuch_bind;
      [apply outcomeSuch_method; intros self; apply query_clientError | intros payload _].
    eapply outcomeSuch_bind with (Q := fun _ => True).
    + destruct (len payload >=? 1); [| now apply outcomeSuch_ret].
      match goal with
      | |- context [if ?test then _ else _] => destruct test
      end; [| now apply outcomeSuch_ret].
      eapply outcomeSuch_bind with (Q := fun _ => True);
        [| intros; now apply outcomeSuch_ret].
      intros [self world]. exact I.
    + intros [status |] _; [now apply outcomeSuch_ret | exact IH].
Qed.

Lemma getSnapshot_clientError (battery headset sidetone includeTimestamp : bool) :
  outcomeSuch (fun _ => True) clientError
    (getSnapshot battery headset sidetone includeTimestamp).
Proof.
  unfold getSnapshot.
  destruct includeTimestamp, battery, headset, sidetone;
    repeat first
      [ now apply outcomeSuch_ret
      | apply getBatteryStatus_clientError
      | apply outcomeSuch_method;
        first [ apply getHeadsetStatus_clientError
              | apply getSliderValue_clientError
              | intros self; eapply outcomeSuch_weaken;
                [| | apply outcomeSuch_total with (E := clientError)]; trivial ]
      | eapply outcomeSuch_bind with (Q := fun _ => True); [| intros ? _] ].
Qed.

(** X12. A failure of a call of the public API is always one of the
    client's own errors: no device, no valid response (possibly chained
    to a transport exception), an unexpected payload, or no sane battery
    value.  An exception raised by the hid binding never reaches the
    caller as such. *)
Theorem perform_fails_only_with_client_errors
    (call : Call) (self : AstroA50Client) (world : World) (error : Exception) :
  fst (perform call (self, world)) = inl error ->
  clientError error.
Proof.
  intros Hfails.
  assert (Houtcome : outcomeSuch (fun _ => True) clientError (perform call)).
  { destruct call; unfold perform;
      (eapply outcomeSuch_bind with (Q := fun _ => True);
       [| intros; now apply outcomeSuch_ret]).
    - apply getBatteryStatus_clientError.
    - apply outcomeSuch_method, getHeadsetStatus_clientError.
    - apply outcomeSuch_method, getSliderValue_clientError.
    - apply outcomeSuch_method, getActiveEqPreset_clientError.
    - apply outcomeSuch_method, getBalance_clientError.
    - apply outcomeSuch_method, getDefaultBalance_clientError.
    - apply outcomeSuch_method, getAlertVolume_clientError.
    - apply outcomeSuch_method, getMicEq_clientError.
    - apply outcomeSuch_method, getNoiseGateMode_clientError.
    - apply getSnapshot_clientError. }
  specialize (Houtcome (self, world)). now rewrite Hfails in Houtcome.
Qed.

End Failures.

(** A device whose every read fails inside the binding, first with an
    error that is not an [OSError]: the caller sees the client's
    no-valid-response error, with that failure as its cause. *)
Lemma perform_fails_only_with_client_errors_witness :
  let world := scriptedWorld (repeat (Raises (OtherException "device unplugged")) 8) in
  fst (perform Call_getHeadsetStatus (defaultClient, world))
    = inl (RuntimeError (CommunicationError Command.getHeadsetStatus)
             (Some (OtherException "device unplugged"))) /\
  clientError (RuntimeError (CommunicationError Command.getHeadsetStatus)
                 (Some (OtherException "device unplugged"))).
Proof.
  intros world.
  assert (Hfails : fst (perform Call_getHeadsetStatus (defaultClient, world))
                   = inl (RuntimeError (CommunicationError Command.getHeadsetStatus)
                            (Some (OtherException "device unplugged"))))
    by (vm_compute; reflexivity).
  split; [exact Hfails |].
  exact (perform_fails_only_with_client_errors _ _ _ _ Hfails).
Defined.

(** * The snapshot *)

Section SnapshotKeys.
Context {World : Type} {hid : Hid World}.

Lemma keys_after_append (snapshot : Snapshot) (keys : list string) (key : string)
    (value : SnapshotValue) :
  map fst snapshot = keys -> map fst (snapshot ++ [(key, value)]) = keys ++ [key].
Proof. intros Hkeys. now rewrite map_app, Hkeys. Qed.

(** X13. A snapshot that is returned holds exactly the keys that were
    asked for, each once, in the order timestamp, battery, headset,
    sidetone; a part that was not asked for is never present. *)
Theorem getSnapshot_has_the_requested_keys
    (battery headset sidetone includeTimestamp : bool)
    (session session1 : Session World) (snapshot : Snapshot) :
  getSnapshot battery headset sidetone includeTimestamp session = (inr snapshot, session1) ->
  map fst snapshot =
    (if includeTimestamp then ["timestamp"%string] else [])
      ++ (if battery then ["battery"%string] else [])
      ++ (if headset then ["headset"%string] else [])
      ++ (if sidetone then ["sidetone"%string] else []).
Proof.
  intros Hsnapshot.
  assert (Houtcome :
            outcomeSuch
              (fun returned =>
                 map fst returned =
                   (((if includeTimestamp then ["timestamp"%string] else [])
                       ++ (if battery then ["battery"%string] else []))
                      ++ (if headset then ["headset"%string] else []))
                     ++ (if sidetone then ["sidetone"%string] else []))
              (fun _ => True)
              (getSnapshot (World := World) battery headset sidetone includeTimestamp)).
  { unfold getSnapshot.
    eapply outcomeSuch_bind
      with (Q := fun returned =>
                   map fst returned = if includeTimestamp then ["timestamp"%string] else []).
    { destruct includeTimestamp; [| now apply outcomeSuch_ret].
      eapply outcomeSuch_bind; [apply outcomeSuch_any | intros now _].
      now apply outcomeSuch_ret. }
    intros snapshot1 Hkeys1.
    eapply outcomeSuch_bind
      with (Q := fun returned =>
                   map fst returned =
                     (if includeTimestamp then ["timestamp"%string] else [])
                       ++ (if battery then ["battery"%string] else [])).
    { destruct battery; [| apply outcomeSuch_ret; now rewrite app_nil_r].
      eapply outcomeSuch_bind; [apply outcomeSuch_any | intros status _].
      apply outcomeSuch_ret. now apply keys_after_append. }
    intros snapshot2 Hkeys2.
    eapply outcomeSuch_bind
      with (Q := fun returned =>
                   map fst returned =
                     ((if includeTimestamp then ["timestamp"%string] else [])
                        ++ (if battery then ["battery"%string] else []))
                       ++ (if headset then ["headset"%string] else [])).
    { destruct headset; [| apply outcomeSuch_ret; now rewrite app_nil_r].
      eapply outcomeSuch_bind; [apply outcomeSuch_any | intros status _].
      apply outcomeSuch_ret. now apply keys_after_append. }
    intros snapshot3 Hkeys3.
    eapply outcomeSuch_bind
      with (Q := fun returned =>
                   map fst returned =
                     (((if includeTimestamp then ["timestamp"%string] else [])
                         ++ (if battery then ["battery"%string] else []))
                        ++ (if headset then ["headset"%string] else []))
                       ++ (if sidetone then ["sidetone"%string] else [])).
    { destruct sidetone; [| apply outcomeSuch_ret; now rewrite app_nil_r].
      eapply outcomeSuch_bind; [apply outcomeSuch_any | intros active _].
      eapply outcomeSuch_bind; [apply outcomeSuch_any | intros saved _].
      apply outcomeSuch_ret. now apply keys_after_append. }
    intros snapshot4 Hkeys4. now apply outcomeSuch_ret. }
  specialize (Houtcome session). rewrite Hsnapshot in Houtcome. cbn [fst] in Houtcome.
  rewrite Houtcome, <- !app_assoc. reflexivity.
Qed.

End SnapshotKeys.

Lemma getSnapshot_has_the_requested_keys_witness :
  let world :=
    scriptedWorld [Data [x02; x02; x01; x03];
                   Data [x02; x02; x04; x68; x05; x32; x28];
                   Data [x02; x02; x04; x68; x05; x32; x28]] in
  exists session1,
    getSnapshot false true true true (defaultClient, world)
      = (inr [("timestamp"%string, TimestampValue (S754_zero false));
              ("headset"%string, HeadsetDict true true);
              ("sidetone"%string, SidetoneDict 50 40)], session1) /\
    map fst [("timestamp"%string, TimestampValue (S754_zero false));
             ("headset"%string, HeadsetDict true true);
             ("sidetone"%string, SidetoneDict 50 40)]
      = ["timestamp"; "headset"; "sidetone"]%string.
Proof.
  intros world. eexists.
  assert (Hsnapshot : getSnapshot false true true true (defaultClient, world)
                      = (inr [("timestamp"%string, TimestampValue (S754_zero false));
                              ("headset"%string, HeadsetDict true true);
                              ("sidetone"%string, SidetoneDict 50 40)], _))
    by (vm_compute; reflexivity).
  split; [exact Hsnapshot |].
  exact (getSnapshot_has_the_requested_keys _ _ _ _ _ _ _ Hsnapshot).
Defined.

(** * What every call puts on the wire *)

Section WireTable.
Context {World : Type} {hid : Hid World}.
Variable lengths : list Z.
Variable P : bytes -> Prop.

Lemma sessionSendsOnly_ret {A : Type} (a : A) :
  sessionSendsOnly (World := World) lengths P (ret a).
Proof. intros self world log Hlengths Hlog. now split. Qed.

Lemma sessionSendsOnly_bind {A B : Type}
    (m : M (Session (Logged World)) A) (k : A -> M (Session (Logged World)) B) :
  sessionSendsOnly lengths P m -> (forall a, sessionSendsOnly lengths P (k a)) ->
  sessionSendsOnly lengths P (bind m k).
Proof.
  intros Hm Hk self world log Hlengths Hlog. unfold bind.
  destruct (Hm self world log Hlengths Hlog) as (Hlengths1 & Hlog1).
  destruct (m (self, (world, log))) as [[error | a] [self1 [world1 log1]]]; cbn [fst snd] in *.
  - now split.
  - exact (Hk a self1 world1 log1 Hlengths1 Hlog1).
Qed.

Lemma sessionSendsOnly_method {A : Type} (m : AstroA50Client -> M (Logged World) A) :
  (forall self, reportLengths self = lengths -> sendsOnly P (m self)) ->
  sessionSendsOnly lengths P (method m).
Proof.
  intros Hm self world log Hlengths Hlog. unfold method.
  specialize (Hm self Hlengths world log Hlog).
  destruct (m self (world, log)) as [outcome [world1 log1]]. cbn [fst snd] in *.
  now split.
Qed.

Lemma sessionSendsOnly_set_lastGoodBatteryStatus (status : BatteryStatus) :
  sessionSendsOnly (World := World) lengths P (set_lastGoodBatteryStatus status).
Proof. intros self world log Hlengths Hlog. now split. Qed.

End WireTable.

Section WireContents.
Context {World : Type} {hid : Hid World}.
Variable lengths : list Z.
Variable contents : list (list Z).

Lemma requestFrameOf_among (self : AstroA50Client) (commandId : Z)
    (payloadBytes : option (list Z)) (content : list Z) (frame : bytes) :
  reportLengths self = lengths ->
  requestHeader commandId (match payloadBytes with Some p => p | None => [] end) = content ->
  In content contents ->
  requestFrameOf self commandId payloadBytes frame ->
  requestAmong lengths contents frame.
Proof.
  intros Hlengths Hcontent Hin Hrequest.
  destruct (requestFrameOf_content _ _ _ _ Hrequest) as (reportLength & Hlength & Hframe).
  exists reportLength, content. rewrite <- Hlengths, <- Hcontent. repeat split; try assumption.
  now rewrite Hcontent.
Qed.

Local Ltac getter_sends content :=
  intros Hlengths Hin;
  apply sendsOnly_bind;
  [ apply query_sendsOnly; intros frame Hrequest;
    refine (requestFrameOf_among _ _ _ content frame Hlengths _ Hin Hrequest)
  | intros payload;
    match goal with
    | |- context [if ?test then _ else _] => destruct test
    end; [apply sendsOnly_raise | apply sendsOnly_ret] ].

Lemma getHeadsetStatus_sends (self : AstroA50Client) :
  reportLengths self = lengths -> In [0x02; 0x54; 0x00] contents ->
  sendsOnly (requestAmong lengths contents) (getHeadsetStatus (World := Logged World) self).
Proof. unfold getHeadsetStatus. getter_sends [0x02; 0x54; 0x00]. reflexivity. Qed.

Lemma getSliderValue_sends (self : AstroA50Client) (sliderType : Z) (saved : bool) :
  reportLengths self = lengths -> In [0x02; 0x68; 0x01; sliderType mod 256] contents ->
  sendsOnly (requestAmong lengths contents)
    (getSliderValue (World := Logged World) self sliderType saved).
Proof.
  unfold getSliderValue. getter_sends [0x02; 0x68; 0x01; sliderType mod 256].
  apply requestHeader_one_byte.
Qed.

Lemma getActiveEqPreset_sends (self : AstroA50Client) :
  reportLengths self = lengths -> In [0x02; 0x6C; 0x00] contents ->
  sendsOnly (requestAmong lengths contents) (getActiveEqPreset (World := Logged World) self).
Proof. unfold getActiveEqPreset. getter_sends [0x02; 0x6C; 0x00]. reflexivity. Qed.

Lemma getBalance_sends (self : AstroA50Client) :
  reportLengths self = lengths -> In [0x02; 0x72; 0x00] contents ->
  sendsOnly (requestAmong lengths contents) (getBalance (World := Logged World) self).
Proof. unfold getBalance. getter_sends [0x02; 0x72; 0x00]. reflexivity. Qed.

Lemma getDefaultBalance_sends (self : AstroA50Client) (saved : bool) :
  reportLengths self = lengths -> In [0x02; 0x77; 0x01; if saved then 1 else 0] contents ->
  sendsOnly (requestAmong lengths contents)
    (getDefaultBalance (World := Logged World) self saved).
Proof.
  unfold getDefaultBalance. getter_sends [0x02; 0x77; 0x01; if saved then 1 else 0].
  destruct saved; reflexivity.
Qed.

Lemma getAlertVolume_sends (self : AstroA50Client) (saved : bool) :
  reportLengths self = lengths -> In [0x02; 0x7A; 0x01; if saved then 1 else 0] contents ->
  sendsOnly (requestAmong lengths contents)
    (getAlertVolume (World := Logged World) self saved).
Proof.
  unfold getAlertVolume. getter_sends [0x02; 0x7A; 0x01; if saved then 1 else 0].
  destruct saved; reflexivity.
Qed.

Lemma getMicEq_sends (self : AstroA50Client) (saved : bool) :
  reportLengths self = lengths -> In [0x02; 0x7B; 0x01; if saved then 1 else 0] contents ->
  sendsOnly (requestAmong lengths contents) (getMicEq (World := Logged World) self saved).
Proof.
  unfold getMicEq. getter_sends [0x02; 0x7B; 0x01; if saved then 1 else 0].
  destruct saved; reflexivity.
Qed.

Lemma getNoiseGateMode_sends (self : AstroA50Client) (saved : bool) :
  reportLengths self = lengths -> In [0x02; 0x6A; 0x00] contents ->
  sendsOnly (requestAmong lengths contents)
    (getNoiseGateMode (World := Logged World) self saved).
Proof. unfold getNoiseGateMode. getter_sends [0x02; 0x6A; 0x00]. reflexivity. Qed.

Lemma getBatteryStatus_sends (retries : Z) :
  In [0x02; 0x7C; 0x00] contents ->
  sessionSendsOnly (World := World) lengths (requestAmong lengths contents)
    (getBatteryStatus retries).
Proof.
  intros Hin. unfold getBatteryStatus.
  induction (Z.to_nat retries) as [| remaining IH]; cbn [getBatteryStatus_for].
  - intros self world log Hlengths Hlog.
    destruct (lastGoodBatteryStatus self); now split.
  - apply sessionSendsOnly_bind.
    + apply sessionSendsOnly_method. intros self Hlengths.
      apply query_sendsOnly. intros frame Hrequest.
      exact (requestFrameOf_among self Command.getBatteryStatus None [0x02; 0x7C; 0x00]
               frame Hlengths eq_refl Hin Hrequest).
    + intros payload. apply sessionSendsOnly_bind.
      * destruct (len payload >=? 1); [| apply sessionSendsOnly_ret].
        match goal with
        | |- context [if ?test then _ else _] => destruct test
        end; [| apply sessionSendsOnly_ret].
        apply sessionSendsOnly_bind;
          [apply sessionSendsOnly_set_lastGoodBatteryStatus
          | intros _; apply sessionSendsOnly_ret].
      * intros [status |]; [apply sessionSendsOnly_ret | exact IH].
Qed.

End WireContents.

Section WirePerform.
Context {World : Type} {hid : Hid World}.

Local Ltac sends_among :=
  repeat first
    [ apply sessionSendsOnly_ret
    | apply getBatteryStatus_sends; simpl; auto
    | apply sessionSendsOnly_method; intros ? ?;
      first [ apply getHeadsetStatus_sends; [assumption | simpl; auto]
            | apply getSliderValue_sends; [assumption | simpl; auto]
            | apply getActiveEqPreset_sends; [assumption | simpl; auto]
            | apply getBalance_sends; [assumption | simpl; auto]
            | apply getDefaultBalance_sends; [assumption | simpl; auto]
            | apply getAlertVolume_sends; [assumption | simpl; auto]
            | apply getMicEq_sends; [assumption | simpl; auto]
            | apply getNoiseGateMode_sends; [assumption | simpl; auto]
            | apply sendsOnly_total ]
    | apply sessionSendsOnly_bind; [| intros ?] ].

Lemma perform_sessionSendsOnly (lengths : list Z) (call : Call) :
  sessionSendsOnly (World := World) lengths (requestAmong lengths (requestContents call))
    (perform call).
Proof.
  destruct call as [retries | | sliderType saved | | | saved | saved | saved | saved
                   | battery headset sidetone includeTimestamp];
    unfold perform; try solve [sends_among].
  unfold getSnapshot.
  destruct includeTimestamp, battery, headset, sidetone; sends_among.
Qed.

(** X14. Every frame a call of the public API sends is the request of
    that call, sized for one of the session's report lengths: marker,
    command id, payload length and payload as listed in
    [requestContents], followed by zero bytes only.  The getters with a
    [saved] argument other than the slider and noise-gate reads send it
    as their one payload byte; a snapshot sends only the battery, headset
    and sidetone-slider requests of the parts asked for. *)
Theorem calls_send_only_their_requests (call : Call) (self : AstroA50Client) (world : World) :
  Forall (requestAmong (reportLengths self) (requestContents call))
         (framesSentBy call self world).
Proof.
  unfold framesSentBy.
  apply (perform_sessionSendsOnly (reportLengths self) call self world []);
    [reflexivity | constructor].
Qed.

End WirePerform.

Lemma calls_send_only_their_requests_witness :
  let world := scriptedWorld [Data []; Data []; Data [x00; x02; x02; x01; x07]] in
  framesSentBy (Call_getAlertVolume true) defaultClient world =
    [[x02; x7a; x01; x01] ++ repeat x00 60;
     [x02; x7a; x01; x01] ++ repeat x00 60;
     x00 :: [x02; x7a; x01; x01] ++ repeat x00 60] /\
  Forall (requestAmong (reportLengths defaultClient)
            (requestContents (Call_getAlertVolume true)))
         (framesSentBy (Call_getAlertVolume true) defaultClient world).
Proof.
  intros world. split; [vm_compute; reflexivity |].
  exact (calls_send_only_their_requests (Call_getAlertVolume true) defaultClient world).
Defined.

(** * The discipline of device handles *)




Section Handles.
Context {World : Type} {hid : Hid World}.
Variable lengths : list Z.















End Handles.

Section SessionHandles.
Context {World : Type} {hid : Hid World}.
Variable lengths : list Z.











End SessionHandles.

Section Discipline.
Context {World : Type} {hid : Hid World}.


End Discipline.


(** * The device that is chosen, and the cache once it is filled *)

Section DeviceChoice.
Context {World : Type} {hid : Hid World}.

(** X16. Among the enumerated devices, [_findDevicePath] returns the path
    of the first one whose vendor id is the session's: devices of other
    vendors before it are skipped, and whatever comes after it, of the
    same vendor or not, is ignored. *)
Theorem findDevicePath_takes_first_match
    (self : AstroA50Client) (world world1 : World)
    (before after : list DeviceInfo) (chosen : DeviceInfo) :
  enumerate world = (before ++ chosen :: after, world1) ->
  Forall (fun other => vendor_id other <> vendorId self) before ->
  vendor_id chosen = vendorId self ->
  _findDevicePath self world = (inr (path chosen), world1).
Proof.
  intros Henumerate Hbefore Hchosen.
  unfold _findDevicePath, bind, total. rewrite Henumerate.
  rewrite filter_app.
  assert (Hskipped : filter (fun device => vendor_id device =? vendorId self) before = []).
  { clear Henumerate. induction before as [| other rest IH]; [reflexivity |].
    inversion Hbefore as [| ? ? Hother Hrest]; subst.
    cbn [filter]. apply Z.eqb_neq in Hother. rewrite Hother. now apply IH. }
  rewrite Hskipped. cbn [app filter]. rewrite Hchosen, Z.eqb_refl. reflexivity.
Qed.

Lemma getBatteryStatus_for_with_cache (remaining : nat) (self : AstroA50Client)
    (cached : BatteryStatus) :
  lastGoodBatteryStatus self = Some cached ->
  forall (world : World) (cause : option Exception),
    fst (getBatteryStatus_for remaining (self, world))
      <> inl (RuntimeError NoSaneBatteryValue cause).
Proof.
  intros Hcached. induction remaining as [| remaining IH]; intros world cause.
  - cbn [getBatteryStatus_for]. rewrite Hcached. discriminate.
  - rewrite getBatteryStatus_for_step.
    destruct (_query self Command.getBatteryStatus None _query_retries world)
      as [[error | [| statusByte rest]] world1] eqn:Hquery.
    + cbn [fst]. intros Heq. inversion Heq; subst error.
      destruct (query_raises _ _ _ _ _ _ _ Hquery) as [Hnone | (cause' & Hcomm)];
        discriminate.
    + apply IH.
    + destruct ((0 <=? chargePercent (batteryByteDecoding statusByte))
                && (chargePercent (batteryByteDecoding statusByte) <=? 100));
        [discriminate | apply IH].
Qed.

(** X17. Once the session has a cached battery status, no call of the
    public API ever clears it, and a battery read can no longer fail with
    the no-sane-battery-value error (it can still fail for lack of a
    device or of a valid response). *)
Theorem cache_once_filled_stays_filled
    (self : AstroA50Client) (cached : BatteryStatus) (world : World) :
  lastGoodBatteryStatus self = Some cached ->
  (forall call : Call,
     exists status,
       lastGoodBatteryStatus (fst (snd (perform call (self, world)))) = Some status) /\
  (forall (retries : Z) (cause : option Exception),
     fst (getBatteryStatus retries (self, world))
       <> inl (RuntimeError NoSaneBatteryValue cause)).
Proof.
  intros Hcached. split.
  - intros call.
    destruct (updatesCacheInRange_perform call self world) as [-> | (status & _ & ->)].
    + now exists cached.
    + now exists status.
  - intros retries cause. now apply (getBatteryStatus_for_with_cache _ _ cached).
Qed.

End DeviceChoice.

Lemma findDevicePath_takes_first_match_witness :
  let keyboard := mkDeviceInfo 0x046D [x6b] in
  let spare := mkDeviceInfo defaultVendorId [x62] in
  let world := mkScripted [keyboard; baseStation; spare] [] [] (S754_zero false) in
  enumerate world = ([keyboard] ++ baseStation :: [spare], world) /\
  Forall (fun other => vendor_id other <> vendorId defaultClient) [keyboard] /\
  vendor_id baseStation = vendorId defaultClient /\
  _findDevicePath defaultClient world = (inr (path baseStation), world).
Proof.
  intros keyboard spare world.
  assert (Henumerate : enumerate world = ([keyboard] ++ baseStation :: [spare], world))
    by reflexivity.
  assert (Hbefore : Forall (fun other => vendor_id other <> vendorId defaultClient) [keyboard])
    by (constructor; [vm_compute; discriminate | constructor]).
  assert (Hchosen : vendor_id baseStation = vendorId defaultClient) by reflexivity.
  split; [exact Henumerate | split; [exact Hbefore | split; [exact Hchosen |]]].
  exact (findDevicePath_takes_first_match defaultClient world world _ _ _
           Henumerate Hbefore Hchosen).
Defined.

Lemma cache_once_filled_stays_filled_witness :
  let self := withLastGood defaultClient (mkBatteryStatus true 80) in
  let world := scriptedWorld (repeat (Data [x02; x02; x00]) 6) in
  lastGoodBatteryStatus self = Some (mkBatteryStatus true 80) /\
  fst (getBatteryStatus 6 (self, world)) = inr (mkBatteryStatus true 80) /\
  (forall cause, fst (getBatteryStatus 6 (self, world))
                   <> inl (RuntimeError NoSaneBatteryValue cause)).
Proof.
  intros self world.
  assert (Hcached : lastGoodBatteryStatus self = Some (mkBatteryStatus true 80))
    by reflexivity.
  split; [exact Hcached | split; [vm_compute; reflexivity |]].
  exact (proj2 (cache_once_filled_stays_filled self _ world Hcached) 6).
Defined.

(** * More retries, and frames that already parse *)

Section MoreRetries.
Context {World : Type} {hid : Hid World}.

Lemma query_for_more (self : AstroA50Client) (devicePath : bytes) (commandId : Z)
    (payloadBytes : option (list Z)) (remaining extra : nat) :
  forall (lastError : option Exception) (world world1 : World) (payload : bytes),
    _query_for self devicePath commandId payloadBytes remaining lastError world
      = (inr payload, world1) ->
    _query_for self devicePath commandId payloadBytes (remaining + extra) lastError world
      = (inr payload, world1).
Proof.
  induction remaining as [| remaining IH]; intros lastError world world1 payload.
  - cbn [_query_for]. discriminate.
  - cbn [Nat.add _query_for].
    destruct (_query_try self devicePath commandId payloadBytes world)
      as [[error | [returned |]] worldA]; intros Hquery.
    + now apply IH.
    + exact Hquery.
    + now apply IH.
Qed.

(** X18. Allowing more retries never changes a query that succeeds: with
    any larger number of retries it returns the same payload and leaves
    the device in the same state. *)
Theorem query_success_is_stable_under_more_retries
    (self : AstroA50Client) (commandId : Z) (payloadBytes : option (list Z))
    (retries more : Z) (world world1 : World) (payload : bytes) :
  _query self commandId payloadBytes retries world = (inr payload, world1) ->
  retries <= more ->
  _query self commandId payloadBytes more world = (inr payload, world1).
Proof.
  unfold _query, bind. intros Hquery Hmore.
  destruct (_findDevicePath self world) as [[error | devicePath] worldA]; [discriminate |].
  replace (Z.to_nat more) with (Z.to_nat retries + (Z.to_nat more - Z.to_nat retries))%nat
    by lia.
  now apply query_for_more.
Qed.

End MoreRetries.

Lemma query_success_is_stable_under_more_retries_witness :
  let world := scriptedWorld (repeat (Data []) 4 ++ [Data [x02; x02; x01; x55]]) in
  exists world1,
    _query defaultClient Command.getBatteryStatus None 2 world = (inr [x55], world1) /\
    2 <= 4 /\
    _query defaultClient Command.getBatteryStatus None 4 world = (inr [x55], world1).
Proof.
  intros world. eexists.
  assert (Hquery : _query defaultClient Command.getBatteryStatus None 2 world
                   = (inr [x55], _)) by (vm_compute; reflexivity).
  assert (Hmore : 2 <= 4) by lia.
  split; [exact Hquery | split; [exact Hmore |]].
  exact (query_success_is_stable_under_more_retries _ _ _ 2 4 _ _ _ Hquery Hmore).
Defined.

(** X19. Normalization does not disturb a frame that already parses: when
    [_extractPayload] finds a payload in a frame, it finds the same payload
    in the normalized frame. *)
Theorem normalizeResponseFrame_keeps_payload (frame payload : bytes) :
  _extractPayload frame = Some payload ->
  _extractPayload (_normalizeResponseFrame frame) = Some payload.
Proof.
  intros Hpayload.
  destruct (normalizeResponseFrame_cases frame) as [(rest & -> & _) | Hsame].
  - exfalso. destruct rest as [| b2 rest]; [discriminate |].
    rewrite extractPayload_header in Hpayload. discriminate.
  - now rewrite Hsame.
Qed.

Lemma normalizeResponseFrame_keeps_payload_witness :
  _extractPayload [x02; x02; x02; x00; x02; x07] = Some [x00; x02] /\
  _extractPayload (_normalizeResponseFrame [x02; x02; x02; x00; x02; x07]) = Some [x00; x02].
Proof.
  assert (Hpayload : _extractPayload [x02; x02; x02; x00; x02; x07] = Some [x00; x02])
    by reflexivity.
  split; [exact Hpayload |].
  exact (normalizeResponseFrame_keeps_payload _ _ Hpayload).
Defined.
